(** * lumen-later: the LP APR calculator, [scripts/calculate_apr.py]

    A shallow embedding of the script and the properties of its
    specification.

    - [Py]: the fragment of the Python runtime the script relies on:
      exceptions as an error monad, [str.split], true division.
    - [Number]: the arithmetic the body of [calculate_apr] uses.  The body is
      duck-typed; it is embedded once and read at two number systems:
      [binary64] (IEEE-754 doubles, what the interpreter computes with) and
      [exact] (rationals, the "real" fields of the specification).
    - [calculate_apr_locals], [calculate_apr]: the function, lines 39-112.
    - [parse_args], [main]: the command line, lines 115-130.

    The parameter dictionary always has the eleven keys of [DEFAULT_PARAMS]:
    the only write is [params[key] = float(value)] under [key in params], so
    it is embedded as a record.  The two integer defaults (1_000_000 and 30)
    and the integer literals 365 and 100 are exactly representable doubles,
    and Python's int/int true division and int*float product of such values
    are the double operations on their conversions. *)

From Stdlib Require Import ZArith QArith Qfield List String Ascii Bool.
From Stdlib Require Import Floats DecimalString.
Import ListNotations.

Set Warnings "-inexact-float".

(** ** Python runtime *)

Module Py.

Inductive exn := ZeroDivisionError | ValueError.

Inductive result (A : Type) :=
| Ok (a : A)
| Raise (e : exn).
Arguments Ok {A} a.
Arguments Raise {A} e.

Definition bind {A B} (c : result A) (k : A -> result B) : result B :=
  match c with
  | Ok a => k a
  | Raise e => Raise e
  end.

(** [s.split(sep)] for a one-character separator. *)
Fixpoint split (sep : ascii) (s : string) : list string :=
  match s with
  | EmptyString => [EmptyString]
  | String c s' =>
      if Ascii.eqb c sep then EmptyString :: split sep s'
      else match split sep s' with
           | h :: t => String c h :: t
           | [] => [String c EmptyString]
           end
  end.

End Py.
Import Py.

Notation "x <- c ;; k" := (bind c (fun x => k))
  (at level 61, c at next level, right associativity).

(** ** Number systems *)

Class Number (A : Type) := {
  of_int : Z -> A;
  nadd : A -> A -> A;
  nmul : A -> A -> A;
  quotient : A -> A -> A;
  is_zero : A -> bool;
}.

Declare Scope num_scope.
Delimit Scope num_scope with num.
Infix "+" := nadd : num_scope.
Infix "*" := nmul : num_scope.

(** [a / b]: raises [ZeroDivisionError] when [b == 0]. *)
Definition truediv {A} `{Number A} (a b : A) : result A :=
  if is_zero b then Raise ZeroDivisionError else Ok (quotient a b).

(** Doubles.  [x == 0] holds for both signed zeros and fails for NaN. *)
#[export] Instance binary64 : Number float := {
  of_int z :=
    if (z <? 0)%Z then PrimFloat.opp (PrimFloat.of_uint63 (Uint63.of_Z (- z)))
    else PrimFloat.of_uint63 (Uint63.of_Z z);
  nadd := PrimFloat.add;
  nmul := PrimFloat.mul;
  quotient := PrimFloat.div;
  is_zero x := PrimFloat.eqb x 0%float;
}.

(** Exact rational arithmetic. *)
#[export] Instance exact : Number Q := {
  of_int := inject_Z;
  nadd := Qplus;
  nmul := Qmult;
  quotient := Qdiv;
  is_zero x := Qeq_bool x 0;
}.

(** ** Parameter set *)

Module Dist.
Record t (A : Type) := mk {
  lp_yield : A;
  treasury : A;
  insurance_fund : A;
}.
Arguments mk {A}.
Arguments lp_yield {A}.
Arguments treasury {A}.
Arguments insurance_fund {A}.
End Dist.

Module LiqDist.
Record t (A : Type) := mk {
  liquidator : A;
  lp_yield : A;
  treasury : A;
  insurance_fund : A;
}.
Arguments mk {A}.
Arguments liquidator {A}.
Arguments lp_yield {A}.
Arguments treasury {A}.
Arguments insurance_fund {A}.
End LiqDist.

Record Params (A : Type) := mkParams {
  total_liquidity : A;
  utilization_ratio : A;
  loan_term_days : A;
  merchant_fee_rate : A;
  late_interest_apr : A;
  liquidation_penalty_rate : A;
  delinquency_rate : A;
  liquidation_rate : A;
  merchant_fee_dist : Dist.t A;
  late_fee_dist : Dist.t A;
  liquidation_penalty_dist : LiqDist.t A;
}.
Arguments mkParams {A}.
Arguments total_liquidity {A}.
Arguments utilization_ratio {A}.
Arguments loan_term_days {A}.
Arguments merchant_fee_rate {A}.
Arguments late_interest_apr {A}.
Arguments liquidation_penalty_rate {A}.
Arguments delinquency_rate {A}.
Arguments liquidation_rate {A}.
Arguments merchant_fee_dist {A}.
Arguments late_fee_dist {A}.
Arguments liquidation_penalty_dist {A}.

Definition DEFAULT_PARAMS : Params float := {|
  total_liquidity := 1000000%float;
  utilization_ratio := 0.8%float;
  loan_term_days := 30%float;
  merchant_fee_rate := 0.015%float;
  late_interest_apr := 0.30%float;
  liquidation_penalty_rate := 0.05%float;
  delinquency_rate := 0.05%float;
  liquidation_rate := 0.10%float;
  merchant_fee_dist :=
    Dist.mk 0.7%float 0.15%float 0.15%float;
  late_fee_dist :=
    Dist.mk 0.8%float 0.1%float 0.1%float;
  liquidation_penalty_dist :=
    LiqDist.mk 0.5%float 0.2%float 0.15%float 0.15%float;
|}.

(** ** calculate_apr *)

(** The local variables of [calculate_apr] once line 95 has run. *)
Record Locals (A : Type) := mkLocals {
  lent_amount : A;
  loan_cycles_per_year : A;
  total_annual_loan_volume : A;
  total_merchant_fee : A;
  delinquent_volume : A;
  avg_late_period_in_years : A;
  total_late_interest : A;
  liquidated_volume : A;
  total_liquidation_penalty : A;
  lp_revenue : A;
  treasury_revenue : A;
  insurance_fund_revenue : A;
  liquidator_revenue : A;
  lp_apr : A;
}.
Arguments mkLocals {A}.
Arguments lent_amount {A}.
Arguments loan_cycles_per_year {A}.
Arguments total_annual_loan_volume {A}.
Arguments total_merchant_fee {A}.
Arguments delinquent_volume {A}.
Arguments avg_late_period_in_years {A}.
Arguments total_late_interest {A}.
Arguments liquidated_volume {A}.
Arguments total_liquidation_penalty {A}.
Arguments lp_revenue {A}.
Arguments treasury_revenue {A}.
Arguments insurance_fund_revenue {A}.
Arguments liquidator_revenue {A}.
Arguments lp_apr {A}.

(** The eight values the report prints, in print order (lines 100-111). *)
Record Report (A : Type) := mkReport {
  pool_size : A;
  utilization : A;
  annual_loan_volume : A;
  lp_apr_line : A;
  lp_yield_line : A;
  treasury_line : A;
  insurance_fund_line : A;
  liquidators_line : A;
}.
Arguments mkReport {A}.
Arguments pool_size {A}.
Arguments utilization {A}.
Arguments annual_loan_volume {A}.
Arguments lp_apr_line {A}.
Arguments lp_yield_line {A}.
Arguments treasury_line {A}.
Arguments insurance_fund_line {A}.
Arguments liquidators_line {A}.

Section Calculator.

Context {A : Type} `{Number A}.
Local Open Scope num_scope.

(** Lines 44-95. *)
Definition calculate_apr_locals (params : Params A) : result (Locals A) :=
  let lent_amount := total_liquidity params * utilization_ratio params in
  loan_cycles_per_year <- truediv (of_int 365) (loan_term_days params) ;;
  let total_annual_loan_volume := lent_amount * loan_cycles_per_year in
  let total_merchant_fee :=
    total_annual_loan_volume * merchant_fee_rate params in
  let delinquent_volume :=
    total_annual_loan_volume * delinquency_rate params in
  avg_late_period_in_years <- truediv (loan_term_days params) (of_int 365) ;;
  let total_late_interest :=
    delinquent_volume * late_interest_apr params * avg_late_period_in_years in
  let liquidated_volume := delinquent_volume * liquidation_rate params in
  let total_liquidation_penalty :=
    liquidated_volume * liquidation_penalty_rate params in
  let dist_merchant := merchant_fee_dist params in
  let dist_late := late_fee_dist params in
  let dist_liq := liquidation_penalty_dist params in
  let lp_revenue :=
    total_merchant_fee * Dist.lp_yield dist_merchant +
    total_late_interest * Dist.lp_yield dist_late +
    total_liquidation_penalty * LiqDist.lp_yield dist_liq in
  let treasury_revenue :=
    total_merchant_fee * Dist.treasury dist_merchant +
    total_late_interest * Dist.treasury dist_late +
    total_liquidation_penalty * LiqDist.treasury dist_liq in
  let insurance_fund_revenue :=
    total_merchant_fee * Dist.insurance_fund dist_merchant +
    total_late_interest * Dist.insurance_fund dist_late +
    total_liquidation_penalty * LiqDist.insurance_fund dist_liq in
  let liquidator_revenue :=
    total_liquidation_penalty * LiqDist.liquidator dist_liq in
  q <- truediv lp_revenue (total_liquidity params) ;;
  let lp_apr := q * of_int 100 in
  Ok {| lent_amount := lent_amount;
        loan_cycles_per_year := loan_cycles_per_year;
        total_annual_loan_volume := total_annual_loan_volume;
        total_merchant_fee := total_merchant_fee;
        delinquent_volume := delinquent_volume;
        avg_late_period_in_years := avg_late_period_in_years;
        total_late_interest := total_late_interest;
        liquidated_volume := liquidated_volume;
        total_liquidation_penalty := total_liquidation_penalty;
        lp_revenue := lp_revenue;
        treasury_revenue := treasury_revenue;
        insurance_fund_revenue := insurance_fund_revenue;
        liquidator_revenue := liquidator_revenue;
        lp_apr := lp_apr |}.

(** Lines 98-112: the values handed to the format strings. *)
Definition print_report (params : Params A) (l : Locals A) : Report A :=
  {| pool_size := total_liquidity params;
     utilization := utilization_ratio params * of_int 100;
     annual_loan_volume := total_annual_loan_volume l;
     lp_apr_line := lp_apr l;
     lp_yield_line := lp_revenue l;
     treasury_line := treasury_revenue l;
     insurance_fund_line := insurance_fund_revenue l;
     liquidators_line := liquidator_revenue l |}.

(** The whole function: what it writes to standard output, or the
    exception it raises before writing anything. *)
Definition calculate_apr (params : Params A) : result (Report A) :=
  l <- calculate_apr_locals params ;;
  Ok (print_report params l).

End Calculator.

(** ** Command line *)

(** The keys of the parameter dictionary that hold a number. *)
Inductive field :=
| TotalLiquidity | UtilizationRatio | LoanTermDays
| MerchantFeeRate | LateInterestApr | LiquidationPenaltyRate
| DelinquencyRate | LiquidationRate.

(** What [params[key]] holds: an int or float, or a nested dict. *)
Inductive entry :=
| Numeric (f : field)
| Mapping.

(** The keys of [DEFAULT_PARAMS], in source order. *)
Definition KEYS : list (string * entry) :=
  [ ("total_liquidity", Numeric TotalLiquidity);
    ("utilization_ratio", Numeric UtilizationRatio);
    ("loan_term_days", Numeric LoanTermDays);
    ("merchant_fee_rate", Numeric MerchantFeeRate);
    ("late_interest_apr", Numeric LateInterestApr);
    ("liquidation_penalty_rate", Numeric LiquidationPenaltyRate);
    ("delinquency_rate", Numeric DelinquencyRate);
    ("liquidation_rate", Numeric LiquidationRate);
    ("merchant_fee_dist", Mapping);
    ("late_fee_dist", Mapping);
    ("liquidation_penalty_dist", Mapping) ]%string.

Fixpoint assoc {V} (key : string) (l : list (string * V)) : option V :=
  match l with
  | [] => None
  | (k, v) :: l' => if String.eqb key k then Some v else assoc key l'
  end.

(** [key in params], with the kind of value found there. *)
Definition params_entry (key : string) : option entry := assoc key KEYS.

Definition get {A} (f : field) (p : Params A) : A :=
  match f with
  | TotalLiquidity => total_liquidity p
  | UtilizationRatio => utilization_ratio p
  | LoanTermDays => loan_term_days p
  | MerchantFeeRate => merchant_fee_rate p
  | LateInterestApr => late_interest_apr p
  | LiquidationPenaltyRate => liquidation_penalty_rate p
  | DelinquencyRate => delinquency_rate p
  | LiquidationRate => liquidation_rate p
  end.

(** [params[key] = v] for a numeric key. *)
Definition set {A} (f : field) (v : A) (p : Params A) : Params A :=
  let 'mkParams tl ur ltd mfr lia lpr dr lr md ld qd := p in
  match f with
  | TotalLiquidity => mkParams v ur ltd mfr lia lpr dr lr md ld qd
  | UtilizationRatio => mkParams tl v ltd mfr lia lpr dr lr md ld qd
  | LoanTermDays => mkParams tl ur v mfr lia lpr dr lr md ld qd
  | MerchantFeeRate => mkParams tl ur ltd v lia lpr dr lr md ld qd
  | LateInterestApr => mkParams tl ur ltd mfr v lpr dr lr md ld qd
  | LiquidationPenaltyRate => mkParams tl ur ltd mfr lia v dr lr md ld qd
  | DelinquencyRate => mkParams tl ur ltd mfr lia lpr v lr md ld qd
  | LiquidationRate => mkParams tl ur ltd mfr lia lpr dr v md ld qd
  end.

(** A line group on standard output. *)
Inductive line :=
| Warning (key : string)
    (* Warning: Ignoring invalid or non-numeric parameter '<key>' *)
| ErrorMessage
    (* Error: Invalid argument format. Please use key=value. *)
| ReportBlock (r : Report float).

(** How the process ends: [sys.exit(code)] or falling off the end of the
    script (code 0), or an exception nobody caught. *)
Inductive status :=
| Exit (code : Z)
| Traceback (e : exn).

(** The key under which a numeric field is stored. *)
Definition key_name (f : field) : string :=
  match f with
  | TotalLiquidity => "total_liquidity"
  | UtilizationRatio => "utilization_ratio"
  | LoanTermDays => "loan_term_days"
  | MerchantFeeRate => "merchant_fee_rate"
  | LateInterestApr => "late_interest_apr"
  | LiquidationPenaltyRate => "liquidation_penalty_rate"
  | DelinquencyRate => "delinquency_rate"
  | LiquidationRate => "liquidation_rate"
  end.

(** The value of the last argument [key=value] of [args] for this [key]. *)
Fixpoint last_value (key : string) (args : list string) : option string :=
  match args with
  | [] => None
  | arg :: rest =>
      match last_value key rest with
      | Some value => Some value
      | None =>
          match split "=" arg with
          | [k; value] => if String.eqb k key then Some value else None
          | _ => None
          end
      end
  end.

Section CommandLine.

(** The builtin [float(s)] on a string: [None] is [ValueError]. *)
Variable py_float : string -> option float.

(** One iteration of the loop, lines 121-125. *)
Definition override (params : Params float) (arg : string)
  : result (Params float * list line) :=
  match split "="%char arg with
  | [key; value] =>
      match params_entry key with
      | Some (Numeric f) =>
          match py_float value with
          | Some v => Ok (set f v params, [])
          | None => Raise ValueError
          end
      | _ => Ok (params, [Warning key])
      end
  | _ => Raise ValueError
  end.

(** The loop, lines 120-125: what was printed is kept when an iteration
    raises. *)
Fixpoint parse_args (args : list string) (params : Params float)
    (out : list line) : result (Params float) * list line :=
  match args with
  | [] => (Ok params, out)
  | arg :: rest =>
      match override params arg with
      | Ok (params', printed) => parse_args rest params' (out ++ printed)
      | Raise e => (Raise e, out)
      end
  end.

(** Lines 118-130; [argv] is [sys.argv[1:]]. *)
Definition main (argv : list string) : status * list line :=
  match parse_args argv DEFAULT_PARAMS [] with
  | (Raise ValueError, out) => (Exit 1, out ++ [ErrorMessage])
  | (Raise e, out) => (Traceback e, out)
  | (Ok params, out) =>
      match calculate_apr params with
      | Ok r => (Exit 0, out ++ [ReportBlock r])
      | Raise e => (Traceback e, out)
      end
  end.

(** An argument the loop cannot process: it does not split into exactly a
    key and a value at the equals sign, or its key holds a number and
    [float()] rejects its value. *)
Definition malformed (arg : string) : bool :=
  match split "=" arg with
  | [key; value] =>
      match params_entry key, py_float value with
      | Some (Numeric _), None => true
      | _, _ => false
      end
  | _ => true
  end.

End CommandLine.

(** ** A reference [float()] for decimal literals

    [sign? (digits ('.' digits?)? | '.' digits) ([eE] sign? digits)?] and
    [sign? (inf | infinity | nan)], converted with a single rounding to
    nearest-even.  Surrounding whitespace and digit-group underscores, which
    the builtin also accepts, are outside this fragment. *)

Module FloatLiteral.

Definition digit (c : ascii) : option Z :=
  let n := (Z.of_nat (nat_of_ascii c) - 48)%Z in
  if ((0 <=? n) && (n <=? 9))%Z then Some n else None.

(** Longest prefix of digits: its value appended to [acc], how many there
    were, and what follows. *)
Fixpoint digits (s : string) (acc : Z) (n : Z) : Z * Z * string :=
  match s with
  | EmptyString => (acc, n, s)
  | String c s' =>
      match digit c with
      | Some d => digits s' (10 * acc + d)%Z (n + 1)%Z
      | None => (acc, n, s)
      end
  end.

Definition sign (s : string) : bool * string :=
  match s with
  | String "-" s' => (true, s')
  | String "+" s' => (false, s')
  | _ => (false, s)
  end.

Definition lower (c : ascii) : ascii :=
  let n := nat_of_ascii c in
  if ((65 <=? n) && (n <=? 90))%nat then ascii_of_nat (n + 32) else c.

Fixpoint lowercase (s : string) : string :=
  match s with
  | EmptyString => EmptyString
  | String c s' => String (lower c) (lowercase s')
  end.

(** The double nearest to [m * 10^e], for [m >= 0]. *)
Definition round (m e : Z) : float :=
  match m with
  | Zpos p =>
      if (0 <=? e)%Z then
        SF2Prim (binary_normalize prec emax (m * 10 ^ e) 0 false)
      else
        SF2Prim (SFdiv prec emax (S754_finite false p 0)
                   (S754_finite false (Z.to_pos (10 ^ (- e))) 0))
  | _ => 0%float
  end.

Definition exponent (s : string) : option Z :=
  match s with
  | EmptyString => Some 0%Z
  | String c s' =>
      if (Ascii.eqb c "e" || Ascii.eqb c "E")%bool then
        let '(neg, s'') := sign s' in
        match digits s'' 0 0 with
        | (x, n, EmptyString) =>
            if (0 <? n)%Z then Some (if neg then (- x)%Z else x) else None
        | _ => None
        end
      else None
  end.

Definition magnitude (s : string) : option float :=
  let l := lowercase s in
  if (String.eqb l "inf" || String.eqb l "infinity")%bool then Some infinity
  else if String.eqb l "nan" then Some nan
  else
    let '(m, n, rest) := digits s 0 0 in
    match rest with
    | String "." rest' =>
        let '(m', k, rest'') := digits rest' m 0 in
        if (0 <? n + k)%Z then
          match exponent rest'' with
          | Some x => Some (round m' (x - k))
          | None => None
          end
        else None
    | _ =>
        if (0 <? n)%Z then
          match exponent rest with
          | Some x => Some (round m x)
          | None => None
          end
        else None
    end.

Definition float_of_string (s : string) : option float :=
  let '(neg, s') := sign s in
  match magnitude s' with
  | Some x => Some (if neg then PrimFloat.opp x else x)
  | None => None
  end.

End FloatLiteral.

(** ** Fixed-point formatting

    [format(x, '.<d>f')] and [format(x, ',.<d>f')]: the exact value of the
    double, rounded half-even to [d] decimals. *)

Module Format.

Definition half_even (n den : Z) : Z :=
  let q := (n / den)%Z in
  let r := (n mod den)%Z in
  if (2 * r <? den)%Z then q
  else if (den <? 2 * r)%Z then (q + 1)%Z
  else if Z.even q then q else (q + 1)%Z.

(** Sign and [|x| * 10^d] rounded to an integer, for a finite [x]. *)
Definition scaled (d : nat) (x : float) : option (bool * Z) :=
  match Prim2SF x with
  | S754_zero s => Some (s, 0%Z)
  | S754_finite s m e =>
      let n := (Zpos m * 10 ^ Z.of_nat d)%Z in
      Some (s, if (0 <=? e)%Z then (n * 2 ^ e)%Z
               else half_even n (2 ^ (- e)))
  | _ => None
  end.

Definition digits_of (n : Z) : string :=
  NilZero.string_of_uint (N.to_uint (Z.to_N n)).

Fixpoint rev_onto (s acc : string) : string :=
  match s with
  | EmptyString => acc
  | String c s' => rev_onto s' (String c acc)
  end.

(** Thousands separators, on the digits from the least significant. *)
Fixpoint group (s : string) : string :=
  match s with
  | String a (String b (String c (String _ _ as rest))) =>
      String a (String b (String c (String "," (group rest))))
  | _ => s
  end.

Definition fixed (comma : bool) (d : nat) (x : float) : string :=
  match scaled d x with
  | Some (s, n) =>
      let unit := (10 ^ Z.of_nat d)%Z in
      let int_part := digits_of (n / unit) in
      let int_part :=
        if comma then rev_onto (group (rev_onto int_part "")) ""
        else int_part in
      let frac :=
        match digits_of (unit + n mod unit) with
        | String _ f => f
        | EmptyString => EmptyString
        end in
      ((if s then "-" else "") ++ int_part ++
       (match d with O => "" | _ => "." ++ frac end))%string
  | None =>
      match Prim2SF x with
      | S754_infinity false => "inf"
      | S754_infinity true => "-inf"
      | _ => "nan"
      end%string
  end.

End Format.

(** The eight values as lines 100-111 format them. *)
Definition rendered (r : Report float) : list string :=
  [ Format.fixed true 2 (pool_size r);
    Format.fixed false 2 (utilization r);
    Format.fixed true 2 (annual_loan_volume r);
    Format.fixed false 4 (lp_apr_line r);
    Format.fixed true 2 (lp_yield_line r);
    Format.fixed true 2 (treasury_line r);
    Format.fixed true 2 (insurance_fund_line r);
    Format.fixed true 2 (liquidators_line r) ].

(** ** The derivation sequence of the specification

    Section 4.1, one definition per numbered step, each written over the
    parameter set and the steps before it. *)

Module Chain.
Section Steps.

Context {A : Type} `{Number A}.
Variable p : Params A.
Local Open Scope num_scope.

Definition step1_lent_amount := total_liquidity p * utilization_ratio p.
Definition step2_loan_cycles_per_year :=
  quotient (of_int 365) (loan_term_days p).
Definition step3_total_annual_loan_volume :=
  step1_lent_amount * step2_loan_cycles_per_year.
Definition step4_total_merchant_fee :=
  step3_total_annual_loan_volume * merchant_fee_rate p.
Definition step5_delinquent_volume :=
  step3_total_annual_loan_volume * delinquency_rate p.
Definition step6_avg_late_period_in_years :=
  quotient (loan_term_days p) (of_int 365).
Definition step7_total_late_interest :=
  step5_delinquent_volume * late_interest_apr p *
  step6_avg_late_period_in_years.
Definition step8_liquidated_volume :=
  step5_delinquent_volume * liquidation_rate p.
Definition step9_total_liquidation_penalty :=
  step8_liquidated_volume * liquidation_penalty_rate p.
Definition step10_lp_revenue :=
  step4_total_merchant_fee * Dist.lp_yield (merchant_fee_dist p) +
  step7_total_late_interest * Dist.lp_yield (late_fee_dist p) +
  step9_total_liquidation_penalty *
    LiqDist.lp_yield (liquidation_penalty_dist p).
Definition step11_treasury_revenue :=
  step4_total_merchant_fee * Dist.treasury (merchant_fee_dist p) +
  step7_total_late_interest * Dist.treasury (late_fee_dist p) +
  step9_total_liquidation_penalty *
    LiqDist.treasury (liquidation_penalty_dist p).
Definition step12_insurance_fund_revenue :=
  step4_total_merchant_fee * Dist.insurance_fund (merchant_fee_dist p) +
  step7_total_late_interest * Dist.insurance_fund (late_fee_dist p) +
  step9_total_liquidation_penalty *
    LiqDist.insurance_fund (liquidation_penalty_dist p).
Definition step13_liquidator_revenue :=
  step9_total_liquidation_penalty *
    LiqDist.liquidator (liquidation_penalty_dist p).
Definition step14_lp_apr :=
  quotient step10_lp_revenue (total_liquidity p) * of_int 100.

Definition locals : Locals A :=
  mkLocals step1_lent_amount step2_loan_cycles_per_year
    step3_total_annual_loan_volume step4_total_merchant_fee
    step5_delinquent_volume step6_avg_late_period_in_years
    step7_total_late_interest step8_liquidated_volume
    step9_total_liquidation_penalty step10_lp_revenue
    step11_treasury_revenue step12_insurance_fund_revenue
    step13_liquidator_revenue step14_lp_apr.

End Steps.
End Chain.

(** ** Parameter sets and predicates of the properties *)

(** The default literals read as exact decimals. *)
Definition EXACT_DEFAULTS : Params Q := {|
  total_liquidity := 1000000;
  utilization_ratio := 8 # 10;
  loan_term_days := 30;
  merchant_fee_rate := 15 # 1000;
  late_interest_apr := 30 # 100;
  liquidation_penalty_rate := 5 # 100;
  delinquency_rate := 5 # 100;
  liquidation_rate := 10 # 100;
  merchant_fee_dist := Dist.mk (7 # 10) (15 # 100) (15 # 100);
  late_fee_dist := Dist.mk (8 # 10) (1 # 10) (1 # 10);
  liquidation_penalty_dist :=
    LiqDist.mk (5 # 10) (2 # 10) (15 # 100) (15 # 100);
|}.

(** Shares that are binary fractions: each mapping sums to 1 in exact and
    in double arithmetic alike. *)
Definition BINARY_SHARES : Params float :=
  let 'mkParams tl ur ltd mfr lia lpr dr lr _ _ _ := DEFAULT_PARAMS in
  mkParams tl ur ltd mfr lia lpr dr lr
    (Dist.mk 0.75%float 0.125%float 0.125%float)
    (Dist.mk 0.5%float 0.25%float 0.25%float)
    (LiqDist.mk 0.5%float 0.25%float 0.125%float 0.125%float).

(** The two sides of the conservation identity, as doubles. *)
Definition revenue_sum (l : Locals float) : float :=
  (lp_revenue l + treasury_revenue l + insurance_fund_revenue l +
   liquidator_revenue l)%float.

Definition fee_sum (l : Locals float) : float :=
  (total_merchant_fee l + total_late_interest l +
   total_liquidation_penalty l)%float.

Definition shares_sum_to_one (p : Params float) : bool :=
  let dm := merchant_fee_dist p in
  let dl := late_fee_dist p in
  let dq := liquidation_penalty_dist p in
  (PrimFloat.eqb
     (Dist.lp_yield dm + Dist.treasury dm + Dist.insurance_fund dm) 1 &&
   PrimFloat.eqb
     (Dist.lp_yield dl + Dist.treasury dl + Dist.insurance_fund dl) 1 &&
   PrimFloat.eqb
     (LiqDist.liquidator dq + LiqDist.lp_yield dq + LiqDist.treasury dq +
      LiqDist.insurance_fund dq) 1)%float%bool.

(** Zeros and finite values of binary64, read off the representation of
    the double. *)
Definition finite (x : float) : bool :=
  match Prim2SF x with
  | S754_zero _ | S754_finite _ _ _ => true
  | _ => false
  end.

Definition zero (x : float) : Prop :=
  exists s, Prim2SF x = S754_zero s.

(** Every number of the parameter set: the eight scalar fields and the ten
    shares. *)
Definition numbers {A} (p : Params A) : list A :=
  [ total_liquidity p; utilization_ratio p; loan_term_days p;
    merchant_fee_rate p; late_interest_apr p; liquidation_penalty_rate p;
    delinquency_rate p; liquidation_rate p;
    Dist.lp_yield (merchant_fee_dist p);
    Dist.treasury (merchant_fee_dist p);
    Dist.insurance_fund (merchant_fee_dist p);
    Dist.lp_yield (late_fee_dist p);
    Dist.treasury (late_fee_dist p);
    Dist.insurance_fund (late_fee_dist p);
    LiqDist.liquidator (liquidation_penalty_dist p);
    LiqDist.lp_yield (liquidation_penalty_dist p);
    LiqDist.treasury (liquidation_penalty_dist p);
    LiqDist.insurance_fund (liquidation_penalty_dist p) ].

(** [utilization_ratio=0 loan_term_days=1e-320]: every field finite, both
    divisors non-zero. *)
Definition TINY_TERM : Params float :=
  set LoanTermDays 1e-320%float (set UtilizationRatio 0%float DEFAULT_PARAMS).

(** ** Vocabulary of the command-line and sign properties *)

(** How often [sep] occurs in [s]. *)
Fixpoint occurrences (sep : ascii) (s : string) : nat :=
  match s with
  | EmptyString => O
  | String c s' =>
      if Ascii.eqb c sep then S (occurrences sep s') else occurrences sep s'
  end.

(** [sep.join(pieces)]. *)
Fixpoint join (sep : ascii) (pieces : list string) : string :=
  match pieces with
  | [] => EmptyString
  | [piece] => piece
  | piece :: rest => (piece ++ String sep (join sep rest))%string
  end.

(** The key an argument names, when it splits into a key and a value. *)
Definition key_of (arg : string) : option string :=
  match split "=" arg with
  | [key; _] => Some key
  | _ => None
  end.

(** The argument names a key that holds a number. *)
Definition names_number (arg : string) : bool :=
  match key_of arg with
  | Some key =>
      match params_entry key with
      | Some (Numeric _) => true
      | _ => false
      end
  | None => false
  end.

(** The keys of the arguments that name no number, in argument order, up
    to the first malformed argument. *)
Fixpoint warned_keys (py_float : string -> option float)
    (args : list string) : list string :=
  match args with
  | [] => []
  | arg :: rest =>
      if malformed py_float arg then []
      else
        match key_of arg with
        | Some key =>
            if names_number arg then warned_keys py_float rest
            else key :: warned_keys py_float rest
        | None => []
        end
  end.

(** The last value given for [key] on the command line reads as a number
    that compares equal to 0. *)
Definition zeroed (py_float : string -> option float) (key : string)
    (args : list string) : bool :=
  match last_value key args with
  | Some value =>
      match py_float value with
      | Some x => is_zero x
      | None => false
      end
  | None => false
  end.

(** The fourteen locals, in the order they are assigned. *)
Definition figures {A} (l : Locals A) : list A :=
  [ lent_amount l; loan_cycles_per_year l; total_annual_loan_volume l;
    total_merchant_fee l; delinquent_volume l; avg_late_period_in_years l;
    total_late_interest l; liquidated_volume l; total_liquidation_penalty l;
    lp_revenue l; treasury_revenue l; insurance_fund_revenue l;
    liquidator_revenue l; lp_apr l ].

(** The sign bit of the double is clear, or the double is NaN: [+0], a
    positive number or [+inf], but neither [-0] nor anything negative. *)
Definition sign_clear_sf (x : spec_float) : bool :=
  match x with
  | S754_zero s | S754_infinity s | S754_finite s _ _ => negb s
  | S754_nan => true
  end.

Definition sign_clear (x : float) : bool := sign_clear_sf (Prim2SF x).

Definition not_a_number (x : float) : bool :=
  match Prim2SF x with
  | S754_nan => true
  | _ => false
  end.

(** * Properties *)

(** ** The runtime fragments on examples *)

Example split_examples :
  map (split "=") ["a=b"; "a"; "a=b=c"; "="; ""; "a="]%string =
  [["a"; "b"]; ["a"]; ["a"; "b"; "c"]; [""; ""]; [""]; ["a"; ""]]%string.
Proof. reflexivity. Qed.

(** The reference [float()] reads the default literals as the doubles the
    interpreter holds for them, rounds ties to even, and rejects what is no
    number. *)
Example float_of_string_examples :
  map FloatLiteral.float_of_string
    ["1000000"; "0.8"; "0.015"; "0.30"; "1e-320"; "9007199254740993";
     "-0.5e1"; "inf"; "abc"; ""; "1.5x"; "soon"]%string =
  [Some 1000000%float; Some 0.8%float; Some 0.015%float; Some 0.30%float;
   Some 1e-320%float; Some 9007199254740992%float; Some (-5)%float;
   Some infinity; None; None; None; None].
Proof. vm_compute. reflexivity. Qed.

Example fixed_examples :
  map (Format.fixed true 2)
    [0.125%float; 0.375%float; 2.675%float; 999.995%float;
     1234567.5%float; (-0.001)%float; infinity]
  = ["0.12"; "0.38"; "2.67"; "1,000.00"; "1,234,567.50"; "-0.00";
     "inf"]%string.
Proof. vm_compute. reflexivity. Qed.

(** The report of a run without arguments, as printed. *)
Example default_report_rendered :
  exists r,
    main FloatLiteral.float_of_string [] = (Exit 0, [ReportBlock r]) /\
    rendered r =
      ["1,000,000.00"; "80.00"; "9,733,333.33"; "11.2287"; "112,286.67";
       "23,465.00"; "23,465.00"; "1,216.67"]%string.
Proof. eexists. split; vm_compute; reflexivity. Qed.

(** [utilization_ratio=0.9] reruns the chain with 0.9 for the utilization
    and every other default. *)
Example utilization_override :
  exists r,
    main FloatLiteral.float_of_string ["utilization_ratio=0.9"]%string
      = (Exit 0, [ReportBlock r]) /\
    calculate_apr (set UtilizationRatio 0.9%float DEFAULT_PARAMS) = Ok r /\
    rendered r =
      ["1,000,000.00"; "90.00"; "10,950,000.00"; "12.6322"; "126,322.50";
       "26,398.12"; "26,398.12"; "1,368.75"]%string.
Proof. eexists. repeat split; vm_compute; reflexivity. Qed.

(** ** The calculator follows the derivation sequence *)

Section ChainLemmas.

Context {A : Type} `{Number A}.
Hypothesis nonzero_365 : is_zero (of_int 365) = false.

Lemma locals_chain (p : Params A) :
  is_zero (loan_term_days p) = false ->
  is_zero (total_liquidity p) = false ->
  calculate_apr_locals p = Ok (Chain.locals p).
Proof.
  intros Hterm Hpool.
  unfold calculate_apr_locals, truediv.
  rewrite Hterm, nonzero_365. cbn [bind].
  rewrite Hpool. reflexivity.
Qed.

Lemma locals_zero_term (p : Params A) :
  is_zero (loan_term_days p) = true ->
  calculate_apr_locals p = Raise ZeroDivisionError.
Proof.
  intros Hterm. unfold calculate_apr_locals, truediv.
  rewrite Hterm. reflexivity.
Qed.

Lemma locals_zero_pool (p : Params A) :
  is_zero (total_liquidity p) = true ->
  calculate_apr_locals p = Raise ZeroDivisionError.
Proof.
  intros Hpool. unfold calculate_apr_locals, truediv.
  destruct (is_zero (loan_term_days p)); [reflexivity |].
  rewrite nonzero_365. cbn [bind].
  rewrite Hpool. reflexivity.
Qed.

End ChainLemmas.

Lemma nonzero_365_binary64 : is_zero (A := float) (of_int 365) = false.
Proof. reflexivity. Qed.

Lemma nonzero_365_exact : is_zero (A := Q) (of_int 365) = false.
Proof. reflexivity. Qed.

(** C1. With [loan_term_days != 0] and [total_liquidity != 0] the locals of
    [calculate_apr] are the fourteen quantities of the derivation sequence,
    each computed by the formula of its step, in double arithmetic. *)
Theorem calculate_apr_follows_chain (p : Params float) :
  is_zero (loan_term_days p) = false ->
  is_zero (total_liquidity p) = false ->
  calculate_apr_locals p =
    Ok {| lent_amount := Chain.step1_lent_amount p;
          loan_cycles_per_year := Chain.step2_loan_cycles_per_year p;
          total_annual_loan_volume := Chain.step3_total_annual_loan_volume p;
          total_merchant_fee := Chain.step4_total_merchant_fee p;
          delinquent_volume := Chain.step5_delinquent_volume p;
          avg_late_period_in_years := Chain.step6_avg_late_period_in_years p;
          total_late_interest := Chain.step7_total_late_interest p;
          liquidated_volume := Chain.step8_liquidated_volume p;
          total_liquidation_penalty := Chain.step9_total_liquidation_penalty p;
          lp_revenue := Chain.step10_lp_revenue p;
          treasury_revenue := Chain.step11_treasury_revenue p;
          insurance_fund_revenue := Chain.step12_insurance_fund_revenue p;
          liquidator_revenue := Chain.step13_liquidator_revenue p;
          lp_apr := Chain.step14_lp_apr p |}.
Proof.
  intros Hterm Hpool.
  now rewrite (locals_chain nonzero_365_binary64 p Hterm Hpool).
Qed.

Lemma calculate_apr_follows_chain_defaults :
  is_zero (loan_term_days DEFAULT_PARAMS) = false /\
  is_zero (total_liquidity DEFAULT_PARAMS) = false /\
  calculate_apr_locals DEFAULT_PARAMS =
    Ok {| lent_amount := 800000%float;
          loan_cycles_per_year := 12.166666666666666%float;
          total_annual_loan_volume := 9733333.3333333321%float;
          total_merchant_fee := 145999.99999999997%float;
          delinquent_volume := 486666.66666666663%float;
          avg_late_period_in_years := 0.082191780821917804%float;
          total_late_interest := 11999.999999999996%float;
          liquidated_volume := 48666.666666666664%float;
          total_liquidation_penalty := 2433.3333333333335%float;
          lp_revenue := 112286.66666666664%float;
          treasury_revenue := 23464.999999999996%float;
          insurance_fund_revenue := 23464.999999999996%float;
          liquidator_revenue := 1216.6666666666667%float;
          lp_apr := 11.228666666666665%float |}.
Proof.
  split; [reflexivity | split; [reflexivity |]].
  rewrite (calculate_apr_follows_chain DEFAULT_PARAMS);
    [vm_compute | ..]; reflexivity.
Defined.

(** ** Failure and the report *)

(** C4 (as amended).  The calculation is a function of the parameter set:
    it raises [ZeroDivisionError] exactly when [loan_term_days == 0] or
    [total_liquidity == 0], and otherwise yields the report of the pool
    size, the utilization as a percentage and six derived quantities.  A
    zero divisor never turns into NaN or an infinity; nothing checks the
    values for finiteness. *)
Theorem calculate_apr_report_or_error (p : Params float) :
  calculate_apr p =
    if (is_zero (loan_term_days p) || is_zero (total_liquidity p))%bool
    then Raise ZeroDivisionError
    else Ok {| pool_size := total_liquidity p;
               utilization := (utilization_ratio p * 100)%float;
               annual_loan_volume := Chain.step3_total_annual_loan_volume p;
               lp_apr_line := Chain.step14_lp_apr p;
               lp_yield_line := Chain.step10_lp_revenue p;
               treasury_line := Chain.step11_treasury_revenue p;
               insurance_fund_line := Chain.step12_insurance_fund_revenue p;
               liquidators_line := Chain.step13_liquidator_revenue p |}.
Proof.
  unfold calculate_apr.
  destruct (is_zero (loan_term_days p)) eqn:Hterm.
  - now rewrite locals_zero_term.
  - destruct (is_zero (total_liquidity p)) eqn:Hpool.
    + now rewrite (locals_zero_pool nonzero_365_binary64).
    + now rewrite (locals_chain nonzero_365_binary64 p Hterm Hpool).
Qed.

(** C4 as stated fails: [total_liquidity=1e308], every other field at its
    default, divides by no zero, yet the annual loan volume overflows and
    the report carries infinities. *)
Lemma report_not_always_finite :
  is_zero (loan_term_days (set TotalLiquidity 1e308%float DEFAULT_PARAMS))
    = false /\
  is_zero (total_liquidity (set TotalLiquidity 1e308%float DEFAULT_PARAMS))
    = false /\
  calculate_apr (set TotalLiquidity 1e308%float DEFAULT_PARAMS) =
    Ok {| pool_size := 1e308%float;
          utilization := 80%float;
          annual_loan_volume := infinity;
          lp_apr_line := infinity;
          lp_yield_line := infinity;
          treasury_line := infinity;
          insurance_fund_line := infinity;
          liquidators_line := infinity |}.
Proof. repeat split; vm_compute; reflexivity. Qed.

(** ** The default scenario *)

(** C7 (as amended).  With the default parameter set the quantities print,
    at two decimals, as 9,733,333.33, 146,000.00, 486,666.67, 12,000.00,
    48,666.67, 2,433.33 and [lp_revenue] as 112,286.67; [lp_apr] prints as
    11.2287 at four decimals. *)
Theorem default_scenario :
  exists l, calculate_apr_locals DEFAULT_PARAMS = Ok l /\
    Format.fixed true 2 (total_annual_loan_volume l) = "9,733,333.33"%string /\
    Format.fixed true 2 (total_merchant_fee l) = "146,000.00"%string /\
    Format.fixed true 2 (delinquent_volume l) = "486,666.67"%string /\
    Format.fixed true 2 (total_late_interest l) = "12,000.00"%string /\
    Format.fixed true 2 (liquidated_volume l) = "48,666.67"%string /\
    Format.fixed true 2 (total_liquidation_penalty l) = "2,433.33"%string /\
    Format.fixed true 2 (lp_revenue l) = "112,286.67"%string /\
    Format.fixed false 4 (lp_apr l) = "11.2287"%string.
Proof.
  eexists. split; [vm_compute; reflexivity |].
  repeat split; vm_compute; reflexivity.
Qed.

(** C7 as stated fails on its last two figures: the default [lp_revenue] is
    above 112,286, a thousand more than 111,286.67, and the default
    [lp_apr] is above 11.22, not 11.1287. *)
Lemma default_lp_revenue_is_not_111286 :
  exists l, calculate_apr_locals DEFAULT_PARAMS = Ok l /\
    PrimFloat.ltb 112286%float (lp_revenue l) = true /\
    String.eqb (Format.fixed true 2 (lp_revenue l)) "111,286.67" = false /\
    PrimFloat.ltb 11.22%float (lp_apr l) = true /\
    String.eqb (Format.fixed false 4 (lp_apr l)) "11.1287" = false.
Proof.
  eexists. split; [vm_compute; reflexivity |].
  repeat split; vm_compute; reflexivity.
Qed.

(** ** Revenue conservation *)

Section Conservation.

Local Open Scope Q_scope.

Lemma nonzero_exact (x : Q) : is_zero x = false -> ~ x == 0.
Proof.
  cbn. intros Hb Heq. apply Qeq_bool_iff in Heq. congruence.
Qed.

(** The three bucket revenues of section 4.1 repartition the three fee
    totals linearly, whatever the shares are. *)
Lemma revenue_repartition (m i q : Q) (dm dl : Dist.t Q) (dq : LiqDist.t Q) :
  (m * Dist.lp_yield dm + i * Dist.lp_yield dl + q * LiqDist.lp_yield dq) +
  (m * Dist.treasury dm + i * Dist.treasury dl + q * LiqDist.treasury dq) +
  (m * Dist.insurance_fund dm + i * Dist.insurance_fund dl +
     q * LiqDist.insurance_fund dq) ==
  m * (Dist.lp_yield dm + Dist.treasury dm + Dist.insurance_fund dm) +
  i * (Dist.lp_yield dl + Dist.treasury dl + Dist.insurance_fund dl) +
  q * (LiqDist.lp_yield dq + LiqDist.treasury dq + LiqDist.insurance_fund dq).
Proof. ring. Qed.

End Conservation.

(** C3 (as amended).  In exact arithmetic, when each distribution mapping
    sums to 1 and neither divisor is 0, the four revenues add up to the
    three fee totals. *)
Theorem revenue_conservation_exact (p : Params Q) :
  is_zero (loan_term_days p) = false ->
  is_zero (total_liquidity p) = false ->
  (Dist.lp_yield (merchant_fee_dist p) + Dist.treasury (merchant_fee_dist p) +
     Dist.insurance_fund (merchant_fee_dist p) == 1)%Q ->
  (Dist.lp_yield (late_fee_dist p) + Dist.treasury (late_fee_dist p) +
     Dist.insurance_fund (late_fee_dist p) == 1)%Q ->
  (LiqDist.liquidator (liquidation_penalty_dist p) +
     LiqDist.lp_yield (liquidation_penalty_dist p) +
     LiqDist.treasury (liquidation_penalty_dist p) +
     LiqDist.insurance_fund (liquidation_penalty_dist p) == 1)%Q ->
  exists l, calculate_apr_locals p = Ok l /\
    (lp_revenue l + treasury_revenue l + insurance_fund_revenue l +
       liquidator_revenue l ==
     total_merchant_fee l + total_late_interest l +
       total_liquidation_penalty l)%Q.
Proof.
  intros Hterm Hpool Hm Hl Hq.
  exists (Chain.locals p).
  split; [now apply (locals_chain nonzero_365_exact) |].
  cbn [Chain.locals lp_revenue treasury_revenue insurance_fund_revenue
       liquidator_revenue total_merchant_fee total_late_interest
       total_liquidation_penalty].
  unfold Chain.step10_lp_revenue, Chain.step11_treasury_revenue,
    Chain.step12_insurance_fund_revenue, Chain.step13_liquidator_revenue.
  generalize (Chain.step4_total_merchant_fee p) as m,
    (Chain.step7_total_late_interest p) as i,
    (Chain.step9_total_liquidation_penalty p) as q.
  intros m i q. cbn [nadd nmul exact].
  rewrite revenue_repartition.
  rewrite Hm, Hl.
  setoid_replace (m * 1 + i * 1 +
      q * (LiqDist.lp_yield (liquidation_penalty_dist p) +
           LiqDist.treasury (liquidation_penalty_dist p) +
           LiqDist.insurance_fund (liquidation_penalty_dist p)) +
      q * LiqDist.liquidator (liquidation_penalty_dist p))%Q
    with (m + i +
      q * (LiqDist.liquidator (liquidation_penalty_dist p) +
           LiqDist.lp_yield (liquidation_penalty_dist p) +
           LiqDist.treasury (liquidation_penalty_dist p) +
           LiqDist.insurance_fund (liquidation_penalty_dist p)))%Q by ring.
  rewrite Hq. ring.
Qed.

Lemma revenue_conservation_exact_defaults :
  exists l, calculate_apr_locals EXACT_DEFAULTS = Ok l /\
    (lp_revenue l + treasury_revenue l + insurance_fund_revenue l +
       liquidator_revenue l ==
     total_merchant_fee l + total_late_interest l +
       total_liquidation_penalty l)%Q.
Proof. apply (revenue_conservation_exact EXACT_DEFAULTS); reflexivity. Defined.

(** C3 as stated fails in double arithmetic: with the default rates and
    shares that sum to 1, the four revenues add up to 160433.33333333328
    and the three fee totals to 160433.33333333331; so they do for the
    default parameter set itself. *)
Lemma revenue_conservation_fails_in_binary64 :
  shares_sum_to_one BINARY_SHARES = true /\
  shares_sum_to_one DEFAULT_PARAMS = true /\
  exists l l',
    calculate_apr_locals BINARY_SHARES = Ok l /\
    calculate_apr_locals DEFAULT_PARAMS = Ok l' /\
    revenue_sum l = 160433.33333333328%float /\
    fee_sum l = 160433.33333333331%float /\
    PrimFloat.eqb (revenue_sum l) (fee_sum l) = false /\
    PrimFloat.eqb (revenue_sum l') (fee_sum l') = false.
Proof.
  split; [reflexivity | split; [reflexivity |]].
  do 2 eexists.
  split; [vm_compute; reflexivity |].
  split; [vm_compute; reflexivity |].
  repeat split; vm_compute; reflexivity.
Qed.

(** ** Scaling the pool *)

(** C8 (as amended).  [lp_apr] is [lp_revenue / total_liquidity * 100], but
    [lp_revenue] is itself proportional to [total_liquidity]: in exact
    arithmetic, multiplying [total_liquidity] by a non-zero [k] with every
    other field fixed multiplies [lp_revenue] by [k] and leaves [lp_apr]
    unchanged. *)
Theorem lp_apr_independent_of_pool_size (p : Params Q) (k : Q) :
  is_zero k = false ->
  is_zero (loan_term_days p) = false ->
  is_zero (total_liquidity p) = false ->
  exists l l',
    calculate_apr_locals p = Ok l /\
    calculate_apr_locals (set TotalLiquidity (k * total_liquidity p)%Q p)
      = Ok l' /\
    (lp_apr l == lp_revenue l / total_liquidity p * 100)%Q /\
    (lp_revenue l' == k * lp_revenue l)%Q /\
    (lp_apr l' == lp_apr l)%Q.
Proof.
  intros Hk Hterm Hpool.
  pose proof (nonzero_exact _ Hk) as Hk'.
  pose proof (nonzero_exact _ Hterm) as Hterm'.
  pose proof (nonzero_exact _ Hpool) as Hpool'.
  destruct p as [tl ur ltd mfr lia lpr dr lr [m1 m2 m3] [l1 l2 l3]
                   [q0 q1 q2 q3]].
  cbn [loan_term_days total_liquidity] in *.
  eexists. eexists.
  split; [apply (locals_chain nonzero_365_exact); assumption |].
  split.
  { apply (locals_chain nonzero_365_exact); cbn; [assumption |].
    destruct (Qeq_bool (k * tl) 0) eqn:E; [| reflexivity].
    apply Qeq_bool_iff, Qmult_integral in E. tauto. }
  cbv [Chain.locals lp_apr lp_revenue Chain.step14_lp_apr
       Chain.step10_lp_revenue Chain.step9_total_liquidation_penalty
       Chain.step8_liquidated_volume Chain.step7_total_late_interest
       Chain.step6_avg_late_period_in_years Chain.step5_delinquent_volume
       Chain.step4_total_merchant_fee Chain.step3_total_annual_loan_volume
       Chain.step2_loan_cycles_per_year Chain.step1_lent_amount
       set total_liquidity utilization_ratio loan_term_days
       merchant_fee_rate late_interest_apr liquidation_penalty_rate
       delinquency_rate liquidation_rate merchant_fee_dist late_fee_dist
       liquidation_penalty_dist Dist.lp_yield LiqDist.lp_yield
       nadd nmul quotient of_int exact].
  split; [reflexivity | split].
  - field. assumption.
  - field. auto.
Qed.

Lemma lp_apr_independent_of_pool_size_defaults :
  exists l l',
    calculate_apr_locals EXACT_DEFAULTS = Ok l /\
    calculate_apr_locals
      (set TotalLiquidity (2 * total_liquidity EXACT_DEFAULTS)%Q
         EXACT_DEFAULTS) = Ok l' /\
    (lp_apr l == lp_revenue l / total_liquidity EXACT_DEFAULTS * 100)%Q /\
    (lp_revenue l' == 2 * lp_revenue l)%Q /\
    (lp_apr l' == lp_apr l)%Q.
Proof.
  apply (lp_apr_independent_of_pool_size EXACT_DEFAULTS 2); reflexivity.
Defined.

(** C8 as stated fails: doubling the default [total_liquidity] leaves
    [lp_apr] at 11.228666666666665 instead of halving it. *)
Lemma doubling_pool_does_not_halve_lp_apr :
  exists l l',
    calculate_apr_locals DEFAULT_PARAMS = Ok l /\
    calculate_apr_locals
      (set TotalLiquidity (2 * total_liquidity DEFAULT_PARAMS)%float
         DEFAULT_PARAMS) = Ok l' /\
    lp_apr l = 11.228666666666665%float /\
    lp_apr l' = 11.228666666666665%float /\
    PrimFloat.eqb (lp_apr l') (lp_apr l / 2) = false.
Proof.
  do 2 eexists.
  split; [vm_compute; reflexivity |].
  split; [vm_compute; reflexivity |].
  repeat split; vm_compute; reflexivity.
Qed.

(** ** Zero utilization *)

(** Zeros and finite values of binary64, read off the IEEE-754
    specification of the primitive operations. *)
Section Binary64Zero.

Lemma is_zero_zero (x : float) : is_zero x = true <-> zero x.
Proof.
  cbn [is_zero binary64]. rewrite FloatAxioms.eqb_spec.
  change (Prim2SF 0%float) with (S754_zero false).
  unfold zero.
  destruct (Prim2SF x) as [s | s | | s m e]; cbn.
  - split; [eauto | reflexivity].
  - destruct s; split; try discriminate; intros [? ?]; discriminate.
  - split; [discriminate | intros [? ?]; discriminate].
  - destruct s; split; try discriminate; intros [? ?]; discriminate.
Qed.

Lemma zero_finite (x : float) : zero x -> finite x = true.
Proof. intros [s Hx]. unfold finite. now rewrite Hx. Qed.

Lemma mul_zero_l (x y : float) :
  zero x -> finite y = true -> zero (x * y)%float.
Proof.
  intros [s Hx]. unfold finite, zero.
  rewrite mul_spec, Hx.
  destruct (Prim2SF y); try discriminate; cbn; eauto.
Qed.

Lemma mul_zero_r (x y : float) :
  finite x = true -> zero y -> zero (x * y)%float.
Proof.
  intros Hx [s Hy]. revert Hx. unfold finite, zero.
  rewrite mul_spec, Hy.
  destruct (Prim2SF x); try discriminate; cbn; eauto.
Qed.

Lemma add_zero (x y : float) : zero x -> zero y -> zero (x + y)%float.
Proof.
  intros [s Hx] [t Hy]. unfold zero.
  rewrite add_spec, Hx, Hy.
  destruct s, t; cbn; eauto.
Qed.

Lemma div_zero (x y : float) :
  zero x -> finite y = true -> is_zero y = false -> zero (x / y)%float.
Proof.
  intros [s Hx] Hy Hnz. unfold zero.
  rewrite div_spec, Hx.
  destruct (Prim2SF y) as [t | t | | t m e] eqn:E;
    unfold finite in Hy; rewrite E in Hy; try discriminate; cbn; eauto.
  assert (is_zero y = true) by (apply is_zero_zero; exists t; exact E).
  congruence.
Qed.

End Binary64Zero.

Create HintDb binary64_zero.
#[export] Hint Resolve mul_zero_l mul_zero_r add_zero div_zero zero_finite
  : binary64_zero.

(** C9 (as amended).  For every parameter set of finite doubles with
    [utilization_ratio == 0], [loan_term_days] and [total_liquidity]
    non-zero, and neither quotient [365 / loan_term_days] nor
    [loan_term_days / 365] overflowing, [lp_apr] and the four revenues
    compare equal to 0. *)
Theorem zero_utilization_zero_revenue (p : Params float) :
  is_zero (utilization_ratio p) = true ->
  is_zero (loan_term_days p) = false ->
  is_zero (total_liquidity p) = false ->
  forallb finite (numbers p) = true ->
  finite (365 / loan_term_days p)%float = true ->
  finite (loan_term_days p / 365)%float = true ->
  exists l, calculate_apr_locals p = Ok l /\
    is_zero (lp_apr l) = true /\
    is_zero (lp_revenue l) = true /\
    is_zero (treasury_revenue l) = true /\
    is_zero (insurance_fund_revenue l) = true /\
    is_zero (liquidator_revenue l) = true.
Proof.
  intros Hu Hterm Hpool Hfin Hcycles Hlate.
  exists (Chain.locals p).
  split; [now apply (locals_chain nonzero_365_binary64) |].
  apply is_zero_zero in Hu.
  destruct p as [tl ur ltd mfr lia lpr dr lr [m1 m2 m3] [l1 l2 l3]
                   [q0 q1 q2 q3]].
  cbn [numbers forallb total_liquidity utilization_ratio loan_term_days
       merchant_fee_rate late_interest_apr liquidation_penalty_rate
       delinquency_rate liquidation_rate merchant_fee_dist late_fee_dist
       liquidation_penalty_dist Dist.lp_yield Dist.treasury
       Dist.insurance_fund LiqDist.liquidator LiqDist.lp_yield
       LiqDist.treasury LiqDist.insurance_fund] in *.
  repeat (apply andb_prop in Hfin; destruct Hfin as [? Hfin]).
  assert (Hvol : zero (tl * ur * (365 / ltd))%float)
    by auto with binary64_zero.
  assert (Hfee : zero (tl * ur * (365 / ltd) * mfr)%float)
    by auto with binary64_zero.
  assert (Hdel : zero (tl * ur * (365 / ltd) * dr)%float)
    by auto with binary64_zero.
  assert (Hint : zero (tl * ur * (365 / ltd) * dr * lia * (ltd / 365))%float)
    by auto with binary64_zero.
  assert (Hpen : zero (tl * ur * (365 / ltd) * dr * lr * lpr)%float)
    by auto with binary64_zero.
  assert (H100 : finite 100%float = true) by reflexivity.
  cbv [Chain.locals lp_apr lp_revenue treasury_revenue insurance_fund_revenue
       liquidator_revenue Chain.step14_lp_apr Chain.step13_liquidator_revenue
       Chain.step12_insurance_fund_revenue Chain.step11_treasury_revenue
       Chain.step10_lp_revenue Chain.step9_total_liquidation_penalty
       Chain.step8_liquidated_volume Chain.step7_total_late_interest
       Chain.step6_avg_late_period_in_years Chain.step5_delinquent_volume
       Chain.step4_total_merchant_fee Chain.step3_total_annual_loan_volume
       Chain.step2_loan_cycles_per_year Chain.step1_lent_amount
       total_liquidity utilization_ratio loan_term_days
       merchant_fee_rate late_interest_apr liquidation_penalty_rate
       delinquency_rate liquidation_rate merchant_fee_dist late_fee_dist
       liquidation_penalty_dist Dist.lp_yield Dist.treasury
       Dist.insurance_fund LiqDist.liquidator LiqDist.lp_yield
       LiqDist.treasury LiqDist.insurance_fund
       nadd nmul quotient binary64].
  change (of_int 365) with 365%float.
  change (of_int 100) with 100%float.
  repeat split; apply is_zero_zero; auto 7 with binary64_zero.
Qed.

Lemma zero_utilization_zero_revenue_defaults :
  exists l,
    calculate_apr_locals (set UtilizationRatio 0%float DEFAULT_PARAMS)
      = Ok l /\
    is_zero (lp_apr l) = true /\
    is_zero (lp_revenue l) = true /\
    is_zero (treasury_revenue l) = true /\
    is_zero (insurance_fund_revenue l) = true /\
    is_zero (liquidator_revenue l) = true.
Proof.
  apply (zero_utilization_zero_revenue
           (set UtilizationRatio 0%float DEFAULT_PARAMS));
    vm_compute; reflexivity.
Defined.

(** C9 as stated fails: with a subnormal loan term [365 / loan_term_days]
    overflows to infinity, [0 * infinity] is NaN, and [lp_apr] and the four
    revenues are NaN, which does not compare equal to 0. *)
Lemma zero_utilization_can_give_nan :
  is_zero (utilization_ratio TINY_TERM) = true /\
  is_zero (loan_term_days TINY_TERM) = false /\
  is_zero (total_liquidity TINY_TERM) = false /\
  forallb finite (numbers TINY_TERM) = true /\
  exists l, calculate_apr_locals TINY_TERM = Ok l /\
    loan_cycles_per_year l = infinity /\
    PrimFloat.is_nan (lp_apr l) = true /\
    is_zero (lp_apr l) = false /\
    is_zero (lp_revenue l) = false /\
    is_zero (treasury_revenue l) = false /\
    is_zero (insurance_fund_revenue l) = false /\
    is_zero (liquidator_revenue l) = false.
Proof.
  repeat (split; [vm_compute; reflexivity |]).
  eexists. split; [vm_compute; reflexivity |].
  repeat split; vm_compute; reflexivity.
Qed.

(** ** Command-line overrides *)

Lemma params_entry_key_name (f : field) :
  params_entry (key_name f) = Some (Numeric f).
Proof. destruct f; reflexivity. Qed.

Lemma params_entry_numeric (key : string) (f : field) :
  params_entry key = Some (Numeric f) -> key = key_name f.
Proof.
  unfold params_entry, KEYS. cbn [assoc].
  repeat match goal with
  | |- context [String.eqb key ?k] =>
      destruct (String.eqb_spec key k) as [-> | _];
        [intros [= <-]; reflexivity |]
  end.
  discriminate.
Qed.

Lemma get_set_same {A} (f : field) (v : A) (p : Params A) :
  get f (set f v p) = v.
Proof. destruct p, f; reflexivity. Qed.

Lemma get_set_other {A} (f g : field) (v : A) (p : Params A) :
  f <> g -> get g (set f v p) = get g p.
Proof. destruct p, f, g; intros Hne; try reflexivity; now elim Hne. Qed.

Lemma set_keeps_distributions {A} (f : field) (v : A) (p : Params A) :
  merchant_fee_dist (set f v p) = merchant_fee_dist p /\
  late_fee_dist (set f v p) = late_fee_dist p /\
  liquidation_penalty_dist (set f v p) = liquidation_penalty_dist p.
Proof. destruct p, f; repeat split. Qed.

Section CommandLineProperties.

Variable py_float : string -> option float.

Lemma override_malformed (params : Params float) (arg : string) :
  malformed py_float arg = true ->
  override py_float params arg = Raise ValueError.
Proof.
  unfold malformed, override.
  destruct (split "=" arg) as [| key [| value [| ? ?]]]; try reflexivity.
  destruct (params_entry key) as [[f |] |]; try discriminate.
  destruct (py_float value); [discriminate | reflexivity].
Qed.

Lemma override_wellformed (params : Params float) (arg : string) :
  malformed py_float arg = false ->
  exists params' keys,
    override py_float params arg = Ok (params', map Warning keys).
Proof.
  unfold malformed, override.
  destruct (split "=" arg) as [| key [| value [| ? ?]]]; try discriminate.
  destruct (params_entry key) as [[f |] |].
  - destruct (py_float value) as [v |]; [| discriminate].
    intros _. now exists (set f v params), [].
  - intros _. now exists params, [key].
  - intros _. now exists params, [key].
Qed.

(** The loop prints nothing but warnings and raises nothing but
    [ValueError]. *)
Lemma parse_args_prints_warnings (args : list string) :
  forall params keys r out,
    parse_args py_float args params (map Warning keys) = (r, out) ->
    (exists keys', out = map Warning keys') /\
    (forall e, r = Raise e -> e = ValueError).
Proof.
  induction args as [| arg rest IH]; intros params keys r out; cbn.
  - intros [= <- <-]. split; [eauto | discriminate].
  - destruct (malformed py_float arg) eqn:Hbad.
    + rewrite (override_malformed params arg Hbad).
      intros [= <- <-]. split; [eauto | now intros e [= <-]].
    + destruct (override_wellformed params arg Hbad) as (p' & ws & ->).
      rewrite <- map_app. apply IH.
Qed.

Lemma parse_args_malformed (args : list string) :
  existsb (malformed py_float) args = true ->
  forall params keys, exists keys',
    parse_args py_float args params (map Warning keys)
      = (Raise ValueError, map Warning keys').
Proof.
  induction args as [| arg rest IH]; cbn; [discriminate |].
  intros Hex params keys.
  destruct (malformed py_float arg) eqn:Hbad.
  - rewrite (override_malformed params arg Hbad). eauto.
  - destruct (override_wellformed params arg Hbad) as (p' & ws & ->).
    rewrite <- map_app. now apply IH.
Qed.

(** Conversely, when no argument is malformed the loop runs to its end, so
    the error exit is taken for malformed arguments only. *)
Lemma parse_args_wellformed (args : list string) :
  existsb (malformed py_float) args = false ->
  forall params keys, exists params' keys',
    parse_args py_float args params (map Warning keys)
      = (Ok params', map Warning keys').
Proof.
  induction args as [| arg rest IH]; cbn; [eauto |].
  intros Hex params keys.
  apply orb_false_iff in Hex as [Hbad Hrest].
  destruct (override_wellformed params arg Hbad) as (p' & ws & ->).
  rewrite <- map_app. now apply IH.
Qed.

(** C5 (as amended).  When some argument does not split into exactly a key
    and a value at the equals sign, or names a numeric field with a value
    [float()] rejects, the program prints the error message once, after
    nothing but warnings, exits with status 1 and never calls
    [calculate_apr], whatever the other arguments are. *)
Theorem malformed_argument_is_fatal (argv : list string) :
  existsb (malformed py_float) argv = true ->
  exists keys,
    main py_float argv = (Exit 1, map Warning keys ++ [ErrorMessage]).
Proof.
  intros Hex.
  destruct (parse_args_malformed argv Hex DEFAULT_PARAMS []) as (keys & Hrun).
  exists keys. unfold main. cbn [map] in Hrun. now rewrite Hrun.
Qed.

(** C6.  A [key=value] argument whose key is unknown, or holds a nested
    mapping, prints the warning naming the key, leaves the parameter set as
    it was, and the loop goes on with the remaining arguments. *)
Theorem unknown_key_is_skipped (arg key value : string) (rest : list string)
    (params : Params float) (out : list line) :
  split "=" arg = [key; value] ->
  params_entry key = None \/ params_entry key = Some Mapping ->
  override py_float params arg = Ok (params, [Warning key]) /\
  parse_args py_float (arg :: rest) params out =
    parse_args py_float rest params (out ++ [Warning key]).
Proof.
  intros Hsplit Hkey.
  assert (Hstep : override py_float params arg = Ok (params, [Warning key])).
  { unfold override. rewrite Hsplit. now destruct Hkey as [-> | ->]. }
  split; [exact Hstep |].
  cbn [parse_args]. now rewrite Hstep.
Qed.

(** C2.  When the overrides leave [loan_term_days == 0] or
    [total_liquidity == 0], [calculate_apr] raises [ZeroDivisionError]
    before printing; the program ends in that uncaught exception, not in
    the exit of an argument error, and its output holds the warnings of
    the loop and nothing else. *)
Theorem zero_divisor_is_fatal (argv : list string) (params : Params float)
    (out : list line) :
  parse_args py_float argv DEFAULT_PARAMS [] = (Ok params, out) ->
  (is_zero (loan_term_days params) || is_zero (total_liquidity params))%bool
    = true ->
  calculate_apr params = Raise ZeroDivisionError /\
  main py_float argv = (Traceback ZeroDivisionError, out) /\
  exists keys, out = map Warning keys.
Proof.
  intros Hrun Hzero.
  assert (Hcalc : calculate_apr params = Raise ZeroDivisionError).
  { unfold calculate_apr.
    apply orb_true_iff in Hzero as [Hterm | Hpool].
    - now rewrite locals_zero_term.
    - now rewrite (locals_zero_pool nonzero_365_binary64). }
  split; [exact Hcalc |].
  split.
  - unfold main. now rewrite Hrun, Hcalc.
  - now apply (parse_args_prints_warnings argv DEFAULT_PARAMS [] _ _ Hrun).
Qed.

Lemma override_last_value (params params' : Params float) (arg : string)
    (printed : list line) (g : field) :
  override py_float params arg = Ok (params', printed) ->
  match last_value (key_name g) [arg] with
  | Some value => py_float value = Some (get g params')
  | None => get g params' = get g params
  end.
Proof.
  unfold override. cbn [last_value].
  destruct (split "=" arg) as [| key [| value [| ? ?]]]; try discriminate.
  destruct (String.eqb_spec key (key_name g)) as [-> | Hne].
  - rewrite params_entry_key_name.
    destruct (py_float value) as [v |]; [| discriminate].
    intros [= <- _]. now rewrite get_set_same.
  - destruct (params_entry key) as [[f |] |] eqn:Hkey.
    + destruct (py_float value) as [v |]; [| discriminate].
      intros [= <- _]. apply get_set_other.
      intros ->. apply Hne. now apply params_entry_numeric.
    + now intros [= <- _].
    + now intros [= <- _].
Qed.

Lemma override_keeps_distributions (params params' : Params float)
    (arg : string) (printed : list line) :
  override py_float params arg = Ok (params', printed) ->
  merchant_fee_dist params' = merchant_fee_dist params /\
  late_fee_dist params' = late_fee_dist params /\
  liquidation_penalty_dist params' = liquidation_penalty_dist params.
Proof.
  unfold override.
  destruct (split "=" arg) as [| key [| value [| ? ?]]]; try discriminate.
  destruct (params_entry key) as [[f |] |].
  - destruct (py_float value) as [v |]; [| discriminate].
    intros [= <- _]. apply set_keeps_distributions.
  - now intros [= <- _].
  - now intros [= <- _].
Qed.

(** C10.  When the loop runs to its end, every numeric field holds
    [float(value)] for the last argument [key=value] naming its key, or,
    when no argument names it, the value it had before the loop; the three
    distribution mappings are those the loop started with. *)
Theorem overrides_apply_left_to_right (args : list string) :
  forall (params params' : Params float) (out out' : list line),
  parse_args py_float args params out = (Ok params', out') ->
  (forall g : field,
     match last_value (key_name g) args with
     | Some value => py_float value = Some (get g params')
     | None => get g params' = get g params
     end) /\
  merchant_fee_dist params' = merchant_fee_dist params /\
  late_fee_dist params' = late_fee_dist params /\
  liquidation_penalty_dist params' = liquidation_penalty_dist params.
Proof.
  induction args as [| arg rest IH]; intros params params' out out'.
  - cbn. intros [= <- _]. auto.
  - cbn [parse_args].
    destruct (override py_float params arg) as [[p1 printed] | e] eqn:Hstep;
      [| discriminate].
    intros Hrest.
    destruct (IH _ _ _ _ Hrest) as (Hfields & Hm & Hl & Hq).
    destruct (override_keeps_distributions _ _ _ _ Hstep) as (Hm1 & Hl1 & Hq1).
    split; [| repeat split; congruence].
    intros g. specialize (Hfields g).
    pose proof (override_last_value _ _ _ _ g Hstep) as Hone.
    cbn [last_value] in *.
    destruct (last_value (key_name g) rest) as [value |]; [exact Hfields |].
    destruct (split "=" arg) as [| k [| value [| ? ?]]];
      try congruence.
    destruct (String.eqb k (key_name g)); [| congruence].
    now rewrite Hfields.
Qed.

End CommandLineProperties.

(** The examples below run the program with the reference [float()]. *)

Lemma zero_divisor_is_fatal_loan_term :
  calculate_apr (set LoanTermDays 0%float DEFAULT_PARAMS)
    = Raise ZeroDivisionError /\
  main FloatLiteral.float_of_string ["foo=1"; "loan_term_days=0"]%string
    = (Traceback ZeroDivisionError, [Warning "foo"]) /\
  exists keys, [Warning "foo"] = map Warning keys.
Proof.
  apply (zero_divisor_is_fatal FloatLiteral.float_of_string
           ["foo=1"; "loan_term_days=0"]%string
           (set LoanTermDays 0%float DEFAULT_PARAMS) [Warning "foo"]);
    vm_compute; reflexivity.
Defined.

Lemma malformed_argument_is_fatal_example :
  exists keys,
    main FloatLiteral.float_of_string
      ["utilization_ratio=0.9"; "foo=5"; "loan_term_days=soon";
       "delinquency_rate=0.1"]%string
    = (Exit 1, map Warning keys ++ [ErrorMessage]).
Proof.
  apply (malformed_argument_is_fatal FloatLiteral.float_of_string
           ["utilization_ratio=0.9"; "foo=5"; "loan_term_days=soon";
            "delinquency_rate=0.1"]%string).
  vm_compute; reflexivity.
Defined.

(** C5 as stated fails: in [foo=abc] the value does not parse as a number,
    but the key is looked up first, so the program prints a warning, runs
    the calculation on the defaults and exits with status 0. *)
Lemma unparsable_value_of_unknown_key_is_not_fatal :
  FloatLiteral.float_of_string "abc" = None /\
  exists r,
    calculate_apr DEFAULT_PARAMS = Ok r /\
    main FloatLiteral.float_of_string ["foo=abc"]%string
      = (Exit 0, [Warning "foo"; ReportBlock r]).
Proof.
  split; [reflexivity |].
  eexists. split; vm_compute; reflexivity.
Qed.

Lemma unknown_key_is_skipped_foo :
  override FloatLiteral.float_of_string DEFAULT_PARAMS "foo=5"
    = Ok (DEFAULT_PARAMS, [Warning "foo"]) /\
  parse_args FloatLiteral.float_of_string
      ["foo=5"; "utilization_ratio=0.9"]%string DEFAULT_PARAMS []
    = parse_args FloatLiteral.float_of_string
        ["utilization_ratio=0.9"]%string DEFAULT_PARAMS
        ([] ++ [Warning "foo"]).
Proof.
  apply (unknown_key_is_skipped FloatLiteral.float_of_string
           "foo=5" "foo" "5" ["utilization_ratio=0.9"]%string
           DEFAULT_PARAMS []).
  - reflexivity.
  - left. reflexivity.
Defined.

Lemma overrides_apply_left_to_right_example :
  (forall g : field,
     match last_value (key_name g)
             ["utilization_ratio=0.5"; "loan_term_days=45";
              "utilization_ratio=0.9"]%string with
     | Some value =>
         FloatLiteral.float_of_string value =
           Some (get g (set LoanTermDays 45%float
                          (set UtilizationRatio 0.9%float DEFAULT_PARAMS)))
     | None =>
         get g (set LoanTermDays 45%float
                  (set UtilizationRatio 0.9%float DEFAULT_PARAMS))
           = get g DEFAULT_PARAMS
     end) /\
  merchant_fee_dist (set LoanTermDays 45%float
                       (set UtilizationRatio 0.9%float DEFAULT_PARAMS))
    = merchant_fee_dist DEFAULT_PARAMS /\
  late_fee_dist (set LoanTermDays 45%float
                   (set UtilizationRatio 0.9%float DEFAULT_PARAMS))
    = late_fee_dist DEFAULT_PARAMS /\
  liquidation_penalty_dist (set LoanTermDays 45%float
                              (set UtilizationRatio 0.9%float DEFAULT_PARAMS))
    = liquidation_penalty_dist DEFAULT_PARAMS.
Proof.
  apply (overrides_apply_left_to_right FloatLiteral.float_of_string
           ["utilization_ratio=0.5"; "loan_term_days=45";
            "utilization_ratio=0.9"]%string DEFAULT_PARAMS _ [] []).
  vm_compute; reflexivity.
Defined.

(** * Further properties of the script *)

(** ** Splitting an argument at the equals sign (line 121) *)

Lemma split_nonempty (sep : ascii) (s : string) : split sep s <> [].
Proof.
  destruct s as [| c s]; cbn; [discriminate |].
  destruct (Ascii.eqb c sep); [discriminate |].
  destruct (split sep s); discriminate.
Qed.

(** Splitting yields one piece more than there are separators. *)
Lemma split_length (sep : ascii) (s : string) :
  List.length (split sep s) = S (occurrences sep s).
Proof.
  induction s as [| c s IH]; cbn; [reflexivity |].
  destruct (Ascii.eqb c sep); cbn; [now rewrite IH |].
  destruct (split sep s) as [| h t] eqn:E; [now elim (split_nonempty sep s) |].
  exact IH.
Qed.

(** X1.  Joining the pieces with the separator gives the string back, and
    no piece holds the separator: the key is the text before the equals
    sign and the value the text after it. *)
Theorem join_split (sep : ascii) (s : string) :
  join sep (split sep s) = s /\
  Forall (fun piece => occurrences sep piece = O) (split sep s).
Proof.
  induction s as [| c s [IHjoin IHfree]]; cbn.
  - split; [reflexivity | repeat constructor].
  - destruct (Ascii.eqb_spec c sep) as [-> | Hne].
    + split.
      * cbn. destruct (split sep s) as [| h t] eqn:E;
          [now elim (split_nonempty sep s) |].
        now rewrite IHjoin.
      * constructor; [reflexivity | exact IHfree].
    + destruct (split sep s) as [| h t] eqn:E;
        [now elim (split_nonempty sep s) |].
      split.
      * destruct t as [| h' t']; cbn in *; now rewrite <- IHjoin.
      * inversion IHfree as [| ? ? Hh Ht]; subst.
        constructor; [| exact Ht].
        cbn. apply Ascii.eqb_neq in Hne. now rewrite Hne.
Qed.

Lemma split_free (sep : ascii) (s : string) :
  occurrences sep s = O -> split sep s = [s].
Proof.
  induction s as [| c s IH]; cbn; [reflexivity |].
  destruct (Ascii.eqb c sep); [discriminate |].
  intros Hfree. now rewrite (IH Hfree).
Qed.

Lemma split_append (sep : ascii) (s t : string) :
  occurrences sep s = O ->
  split sep (s ++ String sep t) = s :: split sep t.
Proof.
  induction s as [| c s IH]; cbn.
  - intros _. now rewrite Ascii.eqb_refl.
  - destruct (Ascii.eqb c sep); [discriminate |].
    intros Hfree. now rewrite (IH Hfree).
Qed.

(** X2.  Conversely, pieces that hold no separator are recovered from
    their join. *)
Theorem split_join (sep : ascii) (pieces : list string) :
  pieces <> [] ->
  Forall (fun piece => occurrences sep piece = O) pieces ->
  split sep (join sep pieces) = pieces.
Proof.
  induction pieces as [| piece rest IH]; [congruence |].
  intros _ Hfree. inversion Hfree as [| ? ? Hpiece Hrest]; subst.
  destruct rest as [| next rest'].
  - cbn. now apply split_free.
  - change (join sep (piece :: next :: rest'))
      with (piece ++ String sep (join sep (next :: rest')))%string.
    rewrite (split_append sep piece _ Hpiece).
    f_equal. apply IH; [discriminate | exact Hrest].
Qed.

Lemma split_join_key_value :
  split "=" (join "=" ["loan_term_days"; "45"]%string)
    = ["loan_term_days"; "45"]%string.
Proof.
  apply (split_join "=" ["loan_term_days"; "45"]%string).
  - discriminate.
  - repeat constructor.
Defined.

(** ** The override loop and the program (lines 118-130) *)

Lemma set_set_other {A} (f g : field) (v w : A) (p : Params A) :
  f <> g -> set f v (set g w p) = set g w (set f v p).
Proof. destruct p, f, g; intros Hne; try reflexivity; now elim Hne. Qed.

Lemma params_ext {A} (p q : Params A) :
  (forall g, get g p = get g q) ->
  merchant_fee_dist p = merchant_fee_dist q ->
  late_fee_dist p = late_fee_dist q ->
  liquidation_penalty_dist p = liquidation_penalty_dist q ->
  p = q.
Proof.
  intros Hget Hm Hl Hq.
  pose proof (Hget TotalLiquidity). pose proof (Hget UtilizationRatio).
  pose proof (Hget LoanTermDays). pose proof (Hget MerchantFeeRate).
  pose proof (Hget LateInterestApr). pose proof (Hget LiquidationPenaltyRate).
  pose proof (Hget DelinquencyRate). pose proof (Hget LiquidationRate).
  destruct p, q; cbn in *. congruence.
Qed.

Section OverrideLoop.

Variable py_float : string -> option float.

(** What one iteration does, by the shape of its argument alone. *)
Lemma override_cases (arg : string) :
  (malformed py_float arg = true /\
   forall params, override py_float params arg = Raise ValueError) \/
  (malformed py_float arg = false /\ names_number arg = true /\
   exists key value f v,
     split "=" arg = [key; value] /\
     params_entry key = Some (Numeric f) /\ py_float value = Some v /\
     forall params, override py_float params arg = Ok (set f v params, [])) \/
  (malformed py_float arg = false /\ names_number arg = false /\
   exists key, key_of arg = Some key /\
     forall params, override py_float params arg
                    = Ok (params, [Warning key])).
Proof.
  unfold malformed, names_number, key_of, override.
  destruct (split "=" arg) as [| key [| value [| ? ?]]]; auto.
  destruct (params_entry key) as [[f |] |] eqn:Hkey.
  - destruct (py_float value) as [v |] eqn:Hv; [| auto].
    right. left. repeat split. now exists key, value, f, v.
  - right. right. repeat split. now exists key.
  - right. right. repeat split. now exists key.
Qed.

(** The loop is a left fold: running it over [pre ++ post] is running it
    over [post] from the parameters and the output [pre] leaves. *)
Lemma parse_args_app (pre post : list string) (params : Params float)
    (out : list line) :
  parse_args py_float (pre ++ post) params out =
    match parse_args py_float pre params out with
    | (Ok params', out') => parse_args py_float post params' out'
    | (Raise e, out') => (Raise e, out')
    end.
Proof.
  revert params out.
  induction pre as [| arg rest IH]; intros params out; cbn; [reflexivity |].
  destruct (override py_float params arg) as [[p1 printed] | e];
    [apply IH | reflexivity].
Qed.

(** The output of the loop is what was there before followed by one
    warning for each argument that names no number, in argument order, up
    to the first malformed argument. *)
Lemma warnings_in_argument_order (args : list string)
    (params : Params float) (out : list line) :
  snd (parse_args py_float args params out) =
    out ++ map Warning (warned_keys py_float args).
Proof.
  revert params out.
  induction args as [| arg rest IH]; intros params out; cbn [parse_args].
  - cbn. now rewrite app_nil_r.
  - cbn [warned_keys].
    destruct (override_cases arg)
      as [(Hbad & Hov) | [(Hbad & Hnum & k & value & f & v & _ & _ & _ & Hov)
                         | (Hbad & Hnum & k & Hk & Hov)]];
      rewrite Hbad, Hov.
    + cbn. now rewrite app_nil_r.
    + assert (Hkey : exists key, key_of arg = Some key).
      { unfold names_number in Hnum.
        destruct (key_of arg); [eauto | discriminate]. }
      destruct Hkey as (key & ->). rewrite Hnum, IH.
      now rewrite app_nil_r.
    + rewrite Hk, Hnum, IH. cbn [map]. now rewrite <- app_assoc.
Qed.

Lemma parse_args_result_independent_of_output (args : list string)
    (params : Params float) (out out' : list line) :
  fst (parse_args py_float args params out) =
  fst (parse_args py_float args params out').
Proof.
  revert params out out'.
  induction args as [| arg rest IH]; intros params out out'; cbn;
    [reflexivity |].
  destruct (override py_float params arg) as [[p1 printed] | e];
    [apply IH | reflexivity].
Qed.

Lemma parse_args_raises_value_error (args : list string)
    (params : Params float) (out : list line) (e : exn) :
  fst (parse_args py_float args params out) = Raise e -> e = ValueError.
Proof.
  revert params out.
  induction args as [| arg rest IH]; intros params out; cbn;
    [discriminate |].
  destruct (override_cases arg)
    as [(_ & Hov) | [(_ & _ & k & value & f & v & _ & _ & _ & Hov)
                    | (_ & _ & k & _ & Hov)]];
    rewrite Hov.
  - now intros [= <-].
  - apply IH.
  - apply IH.
Qed.

Lemma parse_args_status (args : list string) (params : Params float)
    (out : list line) :
  if existsb (malformed py_float) args
  then fst (parse_args py_float args params out) = Raise ValueError
  else exists params', fst (parse_args py_float args params out) = Ok params'.
Proof.
  revert params out.
  induction args as [| arg rest IH]; intros params out; cbn; [eauto |].
  destruct (override_cases arg)
    as [(Hbad & Hov) | [(Hbad & _ & k & value & f & v & _ & _ & _ & Hov)
                       | (Hbad & _ & k & _ & Hov)]];
    rewrite Hbad, Hov; cbn [orb]; [reflexivity | apply IH | apply IH].
Qed.

(** X3.  The program ends in one of three ways and no other: exit status
    1 after the error message, the uncaught [ZeroDivisionError] with no
    report, or exit status 0 after exactly one report, the last thing
    printed.  Before that the output holds one warning for each argument
    that names no number, in argument order, up to the first malformed
    argument, and nothing else. *)
Theorem main_outcomes (argv : list string) :
  main py_float argv =
    (Exit 1, map Warning (warned_keys py_float argv) ++ [ErrorMessage]) \/
  main py_float argv =
    (Traceback ZeroDivisionError, map Warning (warned_keys py_float argv)) \/
  exists r,
    main py_float argv =
      (Exit 0, map Warning (warned_keys py_float argv) ++ [ReportBlock r]).
Proof.
  pose proof (warnings_in_argument_order argv DEFAULT_PARAMS []) as Hout.
  pose proof (parse_args_raises_value_error argv DEFAULT_PARAMS []) as Herr.
  unfold main.
  destruct (parse_args py_float argv DEFAULT_PARAMS []) as [[params | e] out].
  - cbn in Hout. subst out.
    destruct (calculate_apr params) as [r | e] eqn:Hcalc.
    + right. right. now exists r.
    + right. left.
      unfold calculate_apr in Hcalc.
      destruct (calculate_apr_locals params) as [l | e'] eqn:Hl;
        [discriminate |].
      cbn in Hcalc. injection Hcalc as <-.
      unfold calculate_apr_locals, truediv in Hl.
      repeat match type of Hl with
      | context [if ?b then _ else _] => destruct b; cbn in Hl
      end; congruence.
  - cbn in Hout. subst out. rewrite (Herr e eq_refl). now left.
Qed.


(** X5.  The loop stops at the first malformed argument: what follows it
    on the command line changes neither the exit status nor the output. *)
Theorem nothing_after_malformed_argument (pre post : list string)
    (bad : string) :
  malformed py_float bad = true ->
  main py_float (pre ++ bad :: post) = main py_float (pre ++ [bad]).
Proof.
  intros Hbad. unfold main. rewrite !parse_args_app.
  destruct (parse_args py_float pre DEFAULT_PARAMS []) as [[p | e] out];
    [| reflexivity].
  cbn [parse_args]. now rewrite (override_malformed py_float p bad Hbad).
Qed.

(** X6.  An argument in which the equals sign does not occur exactly once
    is an argument-format error wherever it stands, also when its key is
    unknown: the exit status is 1. *)
Theorem equals_sign_must_occur_once (argv : list string) :
  existsb (fun arg => negb (Nat.eqb (occurrences "=" arg) 1)) argv = true ->
  fst (main py_float argv) = Exit 1.
Proof.
  intros Hex.
  assert (Hbad : existsb (malformed py_float) argv = true).
  { apply existsb_exists in Hex as (arg & Hin & Hcount).
    apply existsb_exists. exists arg. split; [exact Hin |].
    unfold malformed.
    pose proof (split_length "=" arg) as Hlen.
    destruct (split "=" arg) as [| key [| value [| ? ?]]]; try reflexivity.
    cbn in Hlen. injection Hlen as Hlen. rewrite <- Hlen in Hcount.
    discriminate. }
  pose proof (parse_args_status argv DEFAULT_PARAMS []) as Hstatus.
  rewrite Hbad in Hstatus. unfold main.
  destruct (parse_args py_float argv DEFAULT_PARAMS []) as [r out].
  cbn in Hstatus. now subst r.
Qed.

Lemma fields_after_loop (args : list string) :
  forall (params params' : Params float) (out out' : list line),
  parse_args py_float args params out = (Ok params', out') ->
  forall g : field,
    match last_value (key_name g) args with
    | Some value => py_float value = Some (get g params')
    | None => get g params' = get g params
    end.
Proof.
  induction args as [| arg rest IH]; intros params params' out out'.
  - cbn. now intros [= <- _] g.
  - cbn [parse_args].
    destruct (override py_float params arg) as [[p1 printed] | e] eqn:Hstep;
      [| discriminate].
    intros Hrest g.
    pose proof (IH _ _ _ _ Hrest g) as Hfields.
    pose proof (override_last_value py_float _ _ _ _ g Hstep) as Hone.
    cbn [last_value] in *.
    destruct (last_value (key_name g) rest) as [value |]; [exact Hfields |].
    destruct (split "=" arg) as [| k [| value [| ? ?]]]; try congruence.
    destruct (String.eqb k (key_name g)); [| congruence].
    now rewrite Hfields.
Qed.

Lemma distributions_after_loop (args : list string) :
  forall (params params' : Params float) (out out' : list line),
  parse_args py_float args params out = (Ok params', out') ->
  merchant_fee_dist params' = merchant_fee_dist params /\
  late_fee_dist params' = late_fee_dist params /\
  liquidation_penalty_dist params' = liquidation_penalty_dist params.
Proof.
  induction args as [| arg rest IH]; intros params params' out out'.
  - cbn. now intros [= <- _].
  - cbn [parse_args].
    destruct (override py_float params arg) as [[p1 printed] | e] eqn:Hstep;
      [| discriminate].
    intros Hrest.
    destruct (IH _ _ _ _ Hrest) as (Hm & Hl & Hq).
    destruct (override_keeps_distributions py_float _ _ _ _ Hstep)
      as (Hm1 & Hl1 & Hq1).
    repeat split; congruence.
Qed.

(** X7.  The parameters the calculation receives depend on the command
    line only through the last value given for each numeric key: two
    argument lists that agree on those, both processed without error from
    the same parameters, leave the same parameter set.  Repeating an
    override, or dropping one that a later argument overrides, changes
    nothing. *)
Theorem last_values_determine_parameters (args1 args2 : list string)
    (params p1 p2 : Params float) (out1 out2 out1' out2' : list line) :
  parse_args py_float args1 params out1 = (Ok p1, out1') ->
  parse_args py_float args2 params out2 = (Ok p2, out2') ->
  (forall g, last_value (key_name g) args1 = last_value (key_name g) args2) ->
  p1 = p2.
Proof.
  intros Hrun1 Hrun2 Hsame.
  destruct (distributions_after_loop _ _ _ _ _ Hrun1) as (Hm1 & Hl1 & Hq1).
  destruct (distributions_after_loop _ _ _ _ _ Hrun2) as (Hm2 & Hl2 & Hq2).
  apply params_ext; try congruence.
  intros g.
  pose proof (fields_after_loop _ _ _ _ _ Hrun1 g) as H1.
  pose proof (fields_after_loop _ _ _ _ _ Hrun2 g) as H2.
  rewrite (Hsame g) in H1.
  destruct (last_value (key_name g) args2); congruence.
Qed.

(** X8.  Two neighbouring arguments that name different keys can be
    swapped: the loop ends with the same parameter set, or raises in both
    orders. *)
Theorem neighbouring_overrides_commute (pre post : list string)
    (a b : string) (params : Params float) (out : list line) :
  key_of a <> key_of b ->
  fst (parse_args py_float (pre ++ a :: b :: post) params out) =
  fst (parse_args py_float (pre ++ b :: a :: post) params out).
Proof.
  intros Hkeys. rewrite !parse_args_app.
  destruct (parse_args py_float pre params out) as [[p | e] o];
    [| reflexivity].
  cbn [parse_args].
  destruct (override_cases a)
    as [(_ & Ha) | [(_ & _ & ka & va & fa & xa & Hsa & Hea & _ & Ha)
                   | (_ & _ & ka & Hka & Ha)]];
  destruct (override_cases b)
    as [(_ & Hb) | [(_ & _ & kb & vb & fb & xb & Hsb & Heb & _ & Hb)
                   | (_ & _ & kb & Hkb & Hb)]];
    rewrite ?Ha, ?Hb; cbn [fst]; rewrite ?Ha, ?Hb; try reflexivity.
  - rewrite set_set_other; [apply parse_args_result_independent_of_output |].
    intros <-. apply Hkeys. unfold key_of. rewrite Hsa, Hsb.
    now rewrite (params_entry_numeric _ _ Hea), (params_entry_numeric _ _ Heb).
  - apply parse_args_result_independent_of_output.
  - apply parse_args_result_independent_of_output.
  - apply parse_args_result_independent_of_output.
Qed.

Lemma parse_args_no_number_named (args : list string)
    (params : Params float) (out : list line) :
  existsb (malformed py_float) args = false ->
  existsb names_number args = false ->
  fst (parse_args py_float args params out) = Ok params.
Proof.
  revert out.
  induction args as [| arg rest IH]; intros out; cbn; [reflexivity |].
  intros Hbad Hnum.
  apply orb_false_iff in Hbad as [Hbad Hbad'].
  apply orb_false_iff in Hnum as [Hnum Hnum'].
  destruct (override_cases arg)
    as [(Hbad1 & _) | [(_ & Hnum1 & _) | (_ & _ & k & _ & Hov)]];
    try congruence.
  rewrite Hov. now apply IH.
Qed.

(** X9.  Arguments that name no number (unknown keys, or the keys of the
    nested mappings), however many, leave the report as it is for the run
    without arguments: the program prints their warnings, then the
    default report, and exits with status 0. *)
Theorem unknown_keys_keep_the_default_report (argv : list string) :
  existsb (malformed py_float) argv = false ->
  existsb names_number argv = false ->
  exists r,
    main py_float [] = (Exit 0, [ReportBlock r]) /\
    main py_float argv =
      (Exit 0, map Warning (warned_keys py_float argv) ++ [ReportBlock r]).
Proof.
  intros Hbad Hnum.
  pose proof (parse_args_no_number_named argv DEFAULT_PARAMS [] Hbad Hnum)
    as Hrun.
  pose proof (warnings_in_argument_order argv DEFAULT_PARAMS []) as Hout.
  unfold main.
  destruct (parse_args py_float argv DEFAULT_PARAMS []) as [r out].
  cbn in Hrun, Hout. subst r out. cbn [parse_args].
  assert (Hdefault : exists r, calculate_apr DEFAULT_PARAMS = Ok r)
    by (eexists; vm_compute; reflexivity).
  destruct Hdefault as (r & ->). now exists r.
Qed.

(** X10.  For every numeric field, the argument made of its key, an
    equals sign and a value without equals sign that [float()] accepts
    stores the number under that key and prints nothing; reading the field
    back gives the number. *)
Theorem numeric_override_sets_field (f : field) (value : string) (v : float)
    (params : Params float) :
  occurrences "=" value = O ->
  py_float value = Some v ->
  override py_float params (key_name f ++ String "=" value)
    = Ok (set f v params, []) /\
  get f (set f v params) = v.
Proof.
  intros Hfree Hv.
  split; [| apply get_set_same].
  unfold override.
  rewrite split_append by (destruct f; reflexivity).
  rewrite (split_free "=" value Hfree).
  now rewrite params_entry_key_name, Hv.
Qed.

Lemma calculate_apr_cases (p : Params float) :
  if (is_zero (loan_term_days p) || is_zero (total_liquidity p))%bool
  then calculate_apr p = Raise ZeroDivisionError
  else exists r, calculate_apr p = Ok r.
Proof.
  unfold calculate_apr.
  destruct (is_zero (loan_term_days p)) eqn:Hterm; cbn [orb].
  - now rewrite locals_zero_term.
  - destruct (is_zero (total_liquidity p)) eqn:Hpool.
    + now rewrite (locals_zero_pool nonzero_365_binary64).
    + rewrite (locals_chain nonzero_365_binary64 p Hterm Hpool). cbn. eauto.
Qed.

Lemma zeroed_field (args : list string) (g : field)
    (params' : Params float) (out out' : list line) :
  parse_args py_float args DEFAULT_PARAMS out = (Ok params', out') ->
  is_zero (get g DEFAULT_PARAMS) = false ->
  zeroed py_float (key_name g) args = is_zero (get g params').
Proof.
  intros Hrun Hdefault.
  pose proof (fields_after_loop _ _ _ _ _ Hrun g) as Hfield.
  unfold zeroed.
  destruct (last_value (key_name g) args) as [value |].
  - now rewrite Hfield.
  - now rewrite Hfield, Hdefault.
Qed.

(** X16.  When no argument is malformed, the run ends in the uncaught
    [ZeroDivisionError] exactly when the last value given for
    [loan_term_days], or the last value given for [total_liquidity], reads
    as a number that compares equal to 0 (as [0], [-0.0] or [0e5] do);
    earlier values for these keys and every other argument play no part. *)
Theorem zero_division_iff_last_value_is_zero (argv : list string) :
  existsb (malformed py_float) argv = false ->
  fst (main py_float argv) = Traceback ZeroDivisionError <->
  (zeroed py_float "loan_term_days" argv ||
   zeroed py_float "total_liquidity" argv)%bool = true.
Proof.
  intros Hbad.
  pose proof (parse_args_status argv DEFAULT_PARAMS []) as Hstatus.
  rewrite Hbad in Hstatus. destruct Hstatus as (params' & Hrun).
  unfold main.
  destruct (parse_args py_float argv DEFAULT_PARAMS []) as [r out] eqn:Hparse.
  cbn in Hrun. subst r.
  change "loan_term_days"%string with (key_name LoanTermDays).
  change "total_liquidity"%string with (key_name TotalLiquidity).
  rewrite (zeroed_field argv LoanTermDays params' [] out Hparse eq_refl).
  rewrite (zeroed_field argv TotalLiquidity params' [] out Hparse eq_refl).
  cbn [get].
  pose proof (calculate_apr_cases params') as Hcalc.
  destruct (is_zero (loan_term_days params') ||
            is_zero (total_liquidity params'))%bool.
  - rewrite Hcalc. now split.
  - destruct Hcalc as (r & ->). split; discriminate.
Qed.

End OverrideLoop.

Lemma nothing_after_malformed_argument_example :
  main FloatLiteral.float_of_string
    (["foo=1"]%string ++ "loan_term_days"%string
       :: ["utilization_ratio=0.9"; "total_liquidity=0"]%string)
  = main FloatLiteral.float_of_string
      (["foo=1"]%string ++ ["loan_term_days"]%string).
Proof.
  apply (nothing_after_malformed_argument FloatLiteral.float_of_string
           ["foo=1"]%string
           ["utilization_ratio=0.9"; "total_liquidity=0"]%string
           "loan_term_days").
  reflexivity.
Defined.

Lemma equals_sign_must_occur_once_example :
  fst (main FloatLiteral.float_of_string
         ["utilization_ratio=0.9"; "foo=a=b"]%string) = Exit 1.
Proof.
  apply (equals_sign_must_occur_once FloatLiteral.float_of_string
           ["utilization_ratio=0.9"; "foo=a=b"]%string).
  reflexivity.
Defined.

Lemma last_values_determine_parameters_example :
  set LoanTermDays 45%float (set UtilizationRatio 0.9%float DEFAULT_PARAMS)
  = set UtilizationRatio 0.9%float (set LoanTermDays 45%float DEFAULT_PARAMS).
Proof.
  apply (last_values_determine_parameters FloatLiteral.float_of_string
           ["utilization_ratio=0.5"; "foo=1"; "loan_term_days=45";
            "utilization_ratio=0.9"]%string
           ["loan_term_days=45"; "utilization_ratio=0.9";
            "utilization_ratio=0.9"]%string
           DEFAULT_PARAMS _ _ [] [] [Warning "foo"] []).
  - vm_compute. reflexivity.
  - vm_compute. reflexivity.
  - intros g. destruct g; reflexivity.
Defined.

Lemma neighbouring_overrides_commute_example :
  fst (parse_args FloatLiteral.float_of_string
         ([] ++ ["utilization_ratio=0.9"; "loan_term_days=45"]%string)
         DEFAULT_PARAMS []) =
  fst (parse_args FloatLiteral.float_of_string
         ([] ++ ["loan_term_days=45"; "utilization_ratio=0.9"]%string)
         DEFAULT_PARAMS []).
Proof.
  apply (neighbouring_overrides_commute FloatLiteral.float_of_string
           [] [] "utilization_ratio=0.9" "loan_term_days=45"
           DEFAULT_PARAMS []).
  vm_compute. discriminate.
Defined.

Lemma unknown_keys_keep_the_default_report_example :
  exists r,
    main FloatLiteral.float_of_string [] = (Exit 0, [ReportBlock r]) /\
    main FloatLiteral.float_of_string
      ["foo=5"; "merchant_fee_dist=0.5"; "=abc"]%string =
      (Exit 0,
       map Warning
         (warned_keys FloatLiteral.float_of_string
            ["foo=5"; "merchant_fee_dist=0.5"; "=abc"]%string)
       ++ [ReportBlock r]).
Proof.
  apply (unknown_keys_keep_the_default_report FloatLiteral.float_of_string
           ["foo=5"; "merchant_fee_dist=0.5"; "=abc"]%string);
    reflexivity.
Defined.

Lemma numeric_override_sets_field_example :
  override FloatLiteral.float_of_string DEFAULT_PARAMS
    (key_name DelinquencyRate ++ String "=" "0.1")
    = Ok (set DelinquencyRate 0.1%float DEFAULT_PARAMS, []) /\
  get DelinquencyRate (set DelinquencyRate 0.1%float DEFAULT_PARAMS)
    = 0.1%float.
Proof.
  apply (numeric_override_sets_field FloatLiteral.float_of_string
           DelinquencyRate "0.1" 0.1%float DEFAULT_PARAMS);
    vm_compute; reflexivity.
Defined.

(** ** Signs and NaN in double arithmetic (lines 44-95) *)

Section Binary64Sign.

Lemma binary_round_aux_sign_clear (m e : Z) (l : location) :
  sign_clear_sf (binary_round_aux prec emax false m e l) = true.
Proof.
  unfold binary_round_aux.
  destruct (shr_fexp prec emax m e l) as [mrs e'].
  destruct (shr_fexp prec emax _ e' loc_Exact) as [mrs' e''].
  destruct (shr_m mrs'); [reflexivity | | reflexivity].
  destruct (Z.leb e'' (emax - prec)); reflexivity.
Qed.

Lemma binary_round_sign_clear (m : positive) (e : Z) :
  sign_clear_sf (binary_round prec emax false m e) = true.
Proof.
  unfold binary_round.
  destruct (shl_align m e _) as [mz ez].
  apply binary_round_aux_sign_clear.
Qed.

Lemma mul_sign_clear (x y : float) :
  sign_clear x = true -> sign_clear y = true ->
  sign_clear (x * y)%float = true.
Proof.
  unfold sign_clear. rewrite mul_spec.
  destruct (Prim2SF x) as [[|] | [|] | | [|] mx ex];
    destruct (Prim2SF y) as [[|] | [|] | | [|] my ey];
    try discriminate; try reflexivity.
  intros _ _. apply binary_round_aux_sign_clear.
Qed.

Lemma add_sign_clear (x y : float) :
  sign_clear x = true -> sign_clear y = true ->
  sign_clear (x + y)%float = true.
Proof.
  unfold sign_clear. rewrite add_spec.
  destruct (Prim2SF x) as [[|] | [|] | | [|] mx ex];
    destruct (Prim2SF y) as [[|] | [|] | | [|] my ey];
    try discriminate; try reflexivity.
  intros _ _. unfold SF64add, SFadd. cbn [cond_Zopp Z.add].
  apply binary_round_sign_clear.
Qed.

Lemma div_sign_clear (x y : float) :
  sign_clear x = true -> sign_clear y = true ->
  sign_clear (x / y)%float = true.
Proof.
  unfold sign_clear. rewrite div_spec.
  destruct (Prim2SF x) as [[|] | [|] | | [|] mx ex];
    destruct (Prim2SF y) as [[|] | [|] | | [|] my ey];
    try discriminate; try reflexivity.
  intros _ _. unfold SF64div, SFdiv.
  destruct (SFdiv_core_binary prec emax (Zpos mx) ex (Zpos my) ey)
    as [[mz ez] lz].
  apply binary_round_aux_sign_clear.
Qed.

Lemma mul_nan_l (x y : float) :
  not_a_number x = true -> not_a_number (x * y)%float = true.
Proof.
  unfold not_a_number. rewrite mul_spec.
  destruct (Prim2SF x); try discriminate. reflexivity.
Qed.

Lemma mul_nan_r (x y : float) :
  not_a_number y = true -> not_a_number (x * y)%float = true.
Proof.
  unfold not_a_number. rewrite mul_spec.
  destruct (Prim2SF y); try discriminate.
  destruct (Prim2SF x); reflexivity.
Qed.

Lemma add_nan_l (x y : float) :
  not_a_number x = true -> not_a_number (x + y)%float = true.
Proof.
  unfold not_a_number. rewrite add_spec.
  destruct (Prim2SF x); try discriminate. reflexivity.
Qed.

Lemma div_nan_l (x y : float) :
  not_a_number x = true -> not_a_number (x / y)%float = true.
Proof.
  unfold not_a_number. rewrite div_spec.
  destruct (Prim2SF x); try discriminate. reflexivity.
Qed.

End Binary64Sign.

Create HintDb binary64_sign.
#[export] Hint Resolve mul_sign_clear add_sign_clear div_sign_clear
  : binary64_sign.
Create HintDb binary64_nan.
#[export] Hint Resolve mul_nan_l mul_nan_r add_nan_l div_nan_l : binary64_nan.

Lemma locals_ok_chain (p : Params float) (l : Locals float) :
  calculate_apr_locals p = Ok l ->
  is_zero (loan_term_days p) = false /\
  is_zero (total_liquidity p) = false /\
  l = Chain.locals p.
Proof.
  intros Hok.
  destruct (is_zero (loan_term_days p)) eqn:Hterm.
  - rewrite (locals_zero_term p Hterm) in Hok. discriminate.
  - destruct (is_zero (total_liquidity p)) eqn:Hpool.
    + rewrite (locals_zero_pool nonzero_365_binary64 p Hpool) in Hok.
      discriminate.
    + rewrite (locals_chain nonzero_365_binary64 p Hterm Hpool) in Hok.
      injection Hok as <-. auto.
Qed.

Ltac unfold_chain :=
  cbv [Chain.locals figures lent_amount loan_cycles_per_year
       total_annual_loan_volume total_merchant_fee delinquent_volume
       avg_late_period_in_years total_late_interest liquidated_volume
       total_liquidation_penalty lp_apr lp_revenue treasury_revenue
       insurance_fund_revenue liquidator_revenue
       Chain.step14_lp_apr Chain.step13_liquidator_revenue
       Chain.step12_insurance_fund_revenue Chain.step11_treasury_revenue
       Chain.step10_lp_revenue Chain.step9_total_liquidation_penalty
       Chain.step8_liquidated_volume Chain.step7_total_late_interest
       Chain.step6_avg_late_period_in_years Chain.step5_delinquent_volume
       Chain.step4_total_merchant_fee Chain.step3_total_annual_loan_volume
       Chain.step2_loan_cycles_per_year Chain.step1_lent_amount
       numbers total_liquidity utilization_ratio loan_term_days
       merchant_fee_rate late_interest_apr liquidation_penalty_rate
       delinquency_rate liquidation_rate merchant_fee_dist late_fee_dist
       liquidation_penalty_dist Dist.lp_yield Dist.treasury
       Dist.insurance_fund LiqDist.liquidator LiqDist.lp_yield
       LiqDist.treasury LiqDist.insurance_fund
       nadd nmul quotient binary64 exact] in *.

(** X11.  Double arithmetic never turns non-negative parameters into a
    negative figure: when no field and no share is negative or [-0] (NaN
    and [+inf] allowed) and the calculation does not raise, each of the
    fourteen locals is [+0], positive, [+inf] or NaN. *)
Theorem figures_are_never_negative (p : Params float) (l : Locals float) :
  forallb sign_clear (numbers p) = true ->
  calculate_apr_locals p = Ok l ->
  forallb sign_clear (figures l) = true.
Proof.
  intros Hsign Hok.
  destruct (locals_ok_chain p l Hok) as (_ & _ & ->).
  destruct p as [tl ur ltd mfr lia lpr dr lr [m1 m2 m3] [l1 l2 l3]
                   [q0 q1 q2 q3]].
  unfold_chain. cbn [forallb] in *.
  repeat (apply andb_prop in Hsign; destruct Hsign as [? Hsign]).
  change (of_int 365) with 365%float.
  change (of_int 100) with 100%float.
  assert (H365 : sign_clear 365%float = true) by reflexivity.
  assert (H100 : sign_clear 100%float = true) by reflexivity.
  repeat (apply andb_true_intro; split); auto 20 with binary64_sign.
Qed.

Lemma figures_are_never_negative_defaults :
  forallb sign_clear
    (figures
       {| lent_amount := 800000%float;
          loan_cycles_per_year := 12.166666666666666%float;
          total_annual_loan_volume := 9733333.3333333321%float;
          total_merchant_fee := 145999.99999999997%float;
          delinquent_volume := 486666.66666666663%float;
          avg_late_period_in_years := 0.082191780821917804%float;
          total_late_interest := 11999.999999999996%float;
          liquidated_volume := 48666.666666666664%float;
          total_liquidation_penalty := 2433.3333333333335%float;
          lp_revenue := 112286.66666666664%float;
          treasury_revenue := 23464.999999999996%float;
          insurance_fund_revenue := 23464.999999999996%float;
          liquidator_revenue := 1216.6666666666667%float;
          lp_apr := 11.228666666666665%float |}) = true.
Proof.
  apply (figures_are_never_negative DEFAULT_PARAMS);
    vm_compute; reflexivity.
Defined.

(** X12.  Nothing rejects or masks a NaN: when [total_liquidity] or
    [utilization_ratio] is NaN and neither divisor compares equal to 0,
    the calculation raises nothing and the annual loan volume, [lp_apr]
    and the four revenues of the report are all NaN. *)
Theorem nan_flows_into_the_report (p : Params float) :
  (not_a_number (total_liquidity p) || not_a_number (utilization_ratio p))%bool
    = true ->
  is_zero (loan_term_days p) = false ->
  is_zero (total_liquidity p) = false ->
  exists r, calculate_apr p = Ok r /\
    forallb not_a_number
      [ annual_loan_volume r; lp_apr_line r; lp_yield_line r;
        treasury_line r; insurance_fund_line r; liquidators_line r ] = true.
Proof.
  intros Hnan Hterm Hpool.
  exists (print_report p (Chain.locals p)).
  split.
  { unfold calculate_apr.
    now rewrite (locals_chain nonzero_365_binary64 p Hterm Hpool). }
  destruct p as [tl ur ltd mfr lia lpr dr lr [m1 m2 m3] [l1 l2 l3]
                   [q0 q1 q2 q3]].
  cbv [print_report annual_loan_volume lp_apr_line lp_yield_line
       treasury_line insurance_fund_line liquidators_line].
  unfold_chain. cbn [forallb].
  assert (Hlent : not_a_number (tl * ur)%float = true).
  { apply orb_true_iff in Hnan as [Hnan | Hnan];
      auto with binary64_nan. }
  repeat (apply andb_true_intro; split); auto 20 with binary64_nan.
Qed.

Lemma nan_flows_into_the_report_example :
  exists r, calculate_apr (set UtilizationRatio nan DEFAULT_PARAMS) = Ok r /\
    forallb not_a_number
      [ annual_loan_volume r; lp_apr_line r; lp_yield_line r;
        treasury_line r; insurance_fund_line r; liquidators_line r ] = true.
Proof.
  apply (nan_flows_into_the_report (set UtilizationRatio nan DEFAULT_PARAMS));
    vm_compute; reflexivity.
Defined.

(** ** The formula chain in exact arithmetic (lines 44-95) *)

(** X13.  In exact arithmetic the loan term cancels out of the late
    interest: the turnover [365 / loan_term_days] is multiplied by the
    late period [loan_term_days / 365], so [total_late_interest] is
    [total_liquidity * utilization_ratio * delinquency_rate *
    late_interest_apr] whatever the loan term. *)
Theorem late_interest_is_independent_of_the_term (p : Params Q) :
  is_zero (loan_term_days p) = false ->
  is_zero (total_liquidity p) = false ->
  exists l, calculate_apr_locals p = Ok l /\
    (total_late_interest l ==
     total_liquidity p * utilization_ratio p * delinquency_rate p *
     late_interest_apr p)%Q.
Proof.
  intros Hterm Hpool.
  pose proof (nonzero_exact _ Hterm) as Hterm'.
  exists (Chain.locals p).
  split; [now apply (locals_chain nonzero_365_exact) |].
  destruct p as [tl ur ltd mfr lia lpr dr lr [m1 m2 m3] [l1 l2 l3]
                   [q0 q1 q2 q3]].
  unfold_chain. cbn [of_int]. field. exact Hterm'.
Qed.

Lemma late_interest_is_independent_of_the_term_defaults :
  exists l, calculate_apr_locals EXACT_DEFAULTS = Ok l /\
    (total_late_interest l ==
     total_liquidity EXACT_DEFAULTS * utilization_ratio EXACT_DEFAULTS *
     delinquency_rate EXACT_DEFAULTS * late_interest_apr EXACT_DEFAULTS)%Q.
Proof.
  apply (late_interest_is_independent_of_the_term EXACT_DEFAULTS);
    reflexivity.
Defined.

(** X14.  In exact arithmetic [lp_apr] has a closed form in which the pool
    size does not occur and the utilization is a factor:
    [100 * utilization_ratio * (365 / loan_term_days * (merchant_fee_rate *
    merchant share + delinquency_rate * liquidation_rate *
    liquidation_penalty_rate * penalty share) + delinquency_rate *
    late_interest_apr * late share)], with the [lp_yield] shares. *)
Theorem lp_apr_closed_form (p : Params Q) :
  is_zero (loan_term_days p) = false ->
  is_zero (total_liquidity p) = false ->
  exists l, calculate_apr_locals p = Ok l /\
    (lp_apr l ==
     100 * utilization_ratio p *
     (365 / loan_term_days p *
        (merchant_fee_rate p * Dist.lp_yield (merchant_fee_dist p) +
         delinquency_rate p * liquidation_rate p *
           liquidation_penalty_rate p *
           LiqDist.lp_yield (liquidation_penalty_dist p)) +
      delinquency_rate p * late_interest_apr p *
        Dist.lp_yield (late_fee_dist p)))%Q.
Proof.
  intros Hterm Hpool.
  pose proof (nonzero_exact _ Hterm) as Hterm'.
  pose proof (nonzero_exact _ Hpool) as Hpool'.
  exists (Chain.locals p).
  split; [now apply (locals_chain nonzero_365_exact) |].
  destruct p as [tl ur ltd mfr lia lpr dr lr [m1 m2 m3] [l1 l2 l3]
                   [q0 q1 q2 q3]].
  unfold_chain. cbn [of_int]. field. auto.
Qed.

Lemma lp_apr_closed_form_defaults :
  exists l, calculate_apr_locals EXACT_DEFAULTS = Ok l /\
    (lp_apr l ==
     100 * utilization_ratio EXACT_DEFAULTS *
     (365 / loan_term_days EXACT_DEFAULTS *
        (merchant_fee_rate EXACT_DEFAULTS *
           Dist.lp_yield (merchant_fee_dist EXACT_DEFAULTS) +
         delinquency_rate EXACT_DEFAULTS * liquidation_rate EXACT_DEFAULTS *
           liquidation_penalty_rate EXACT_DEFAULTS *
           LiqDist.lp_yield (liquidation_penalty_dist EXACT_DEFAULTS)) +
      delinquency_rate EXACT_DEFAULTS * late_interest_apr EXACT_DEFAULTS *
        Dist.lp_yield (late_fee_dist EXACT_DEFAULTS)))%Q.
Proof.
  apply (lp_apr_closed_form EXACT_DEFAULTS); reflexivity.
Defined.

(** X15.  In exact arithmetic the LP, treasury and insurance revenues
    repartition the three fee totals linearly, whatever the shares are:
    their sum is each total times the sum of its three shares, with
    nothing lost or counted twice. *)
Theorem bucket_revenues_repartition_the_fees (p : Params Q) :
  is_zero (loan_term_days p) = false ->
  is_zero (total_liquidity p) = false ->
  exists l, calculate_apr_locals p = Ok l /\
    (lp_revenue l + treasury_revenue l + insurance_fund_revenue l ==
     total_merchant_fee l *
       (Dist.lp_yield (merchant_fee_dist p) +
        Dist.treasury (merchant_fee_dist p) +
        Dist.insurance_fund (merchant_fee_dist p)) +
     total_late_interest l *
       (Dist.lp_yield (late_fee_dist p) + Dist.treasury (late_fee_dist p) +
        Dist.insurance_fund (late_fee_dist p)) +
     total_liquidation_penalty l *
       (LiqDist.lp_yield (liquidation_penalty_dist p) +
        LiqDist.treasury (liquidation_penalty_dist p) +
        LiqDist.insurance_fund (liquidation_penalty_dist p)))%Q.
Proof.
  intros Hterm Hpool.
  exists (Chain.locals p).
  split; [now apply (locals_chain nonzero_365_exact) |].
  cbn [Chain.locals lp_revenue treasury_revenue insurance_fund_revenue
       total_merchant_fee total_late_interest total_liquidation_penalty].
  unfold Chain.step10_lp_revenue, Chain.step11_treasury_revenue,
    Chain.step12_insurance_fund_revenue.
  cbn [nadd nmul exact].
  apply revenue_repartition.
Qed.

Lemma bucket_revenues_repartition_the_fees_defaults :
  exists l, calculate_apr_locals EXACT_DEFAULTS = Ok l /\
    (lp_revenue l + treasury_revenue l + insurance_fund_revenue l ==
     total_merchant_fee l *
       (Dist.lp_yield (merchant_fee_dist EXACT_DEFAULTS) +
        Dist.treasury (merchant_fee_dist EXACT_DEFAULTS) +
        Dist.insurance_fund (merchant_fee_dist EXACT_DEFAULTS)) +
     total_late_interest l *
       (Dist.lp_yield (late_fee_dist EXACT_DEFAULTS) +
        Dist.treasury (late_fee_dist EXACT_DEFAULTS) +
        Dist.insurance_fund (late_fee_dist EXACT_DEFAULTS)) +
     total_liquidation_penalty l *
       (LiqDist.lp_yield (liquidation_penalty_dist EXACT_DEFAULTS) +
        LiqDist.treasury (liquidation_penalty_dist EXACT_DEFAULTS) +
        LiqDist.insurance_fund (liquidation_penalty_dist EXACT_DEFAULTS)))%Q.
Proof.
  apply (bucket_revenues_repartition_the_fees EXACT_DEFAULTS); reflexivity.
Defined.

Lemma zero_division_iff_last_value_is_zero_example :
  fst (main FloatLiteral.float_of_string
         ["total_liquidity=0"; "foo=1"; "total_liquidity=-0.0"]%string)
    = Traceback ZeroDivisionError <->
  (zeroed FloatLiteral.float_of_string "loan_term_days"
     ["total_liquidity=0"; "foo=1"; "total_liquidity=-0.0"]%string ||
   zeroed FloatLiteral.float_of_string "total_liquidity"
     ["total_liquidity=0"; "foo=1"; "total_liquidity=-0.0"]%string)%bool
    = true.
Proof.
  apply (zero_division_iff_last_value_is_zero FloatLiteral.float_of_string
           ["total_liquidity=0"; "foo=1"; "total_liquidity=-0.0"]%string).
  reflexivity.
Defined.
